(** * CountDownTimerESP32: the timer engine, the remote command buffer and the
    digit encoder of [CountDownTimerESP32.ino], embedded in Rocq.

    The sketch runs on an ESP32: [int], [long] and [unsigned long] are 32 bits
    wide.  Machine integers are kept as [Z] with the wrap-around written out
    ([wrap32] for [unsigned long], [to_long] for the conversion to [long]).
    One call of [loop()] is one tick; what the hardware delivers during a tick
    (button edges, at most one Bluetooth byte, the clock readings) is the
    tick's [Input]. *)

From Stdlib Require Import ZArith Lia Bool String Ascii List.
From stdpp Require Import base list.
Import ListNotations.

Local Open Scope Z_scope.

(** ** Machine arithmetic *)

Definition two32 : Z := 4294967296.
Definition two31 : Z := 2147483648.

(** Value of an [unsigned long] expression: reduction modulo 2^32. *)
Definition wrap32 (z : Z) : Z := z mod two32.

(** Conversion of a 32-bit pattern to [long] (two's complement). *)
Definition to_long (z : Z) : Z :=
  let u := wrap32 z in if u <? two31 then u else u - two32.

(** Conversion to [uint8_t], as done by the [CHSV] constructor. *)
Definition to_u8 (z : Z) : Z := z mod 256.

(** [bitRead(value, bit)] of the Arduino core: [((value) >> (bit)) & 0x01]. *)
Definition bitRead (value : Z) (bit : Z) : Z := Z.land (Z.shiftr value bit) 1.

(** [map()] of the Arduino core, on [long] arguments:
    [(x - in_min) * (out_max - out_min) / (in_max - in_min) + out_min].
    [None] stands for the division by zero when [in_max = in_min]. *)
Definition map_range (x in_min in_max out_min out_max : Z) : option Z :=
  if in_max - in_min =? 0 then None
  else Some (to_long (Z.quot (to_long ((x - in_min) * (out_max - out_min)))
                             (in_max - in_min) + out_min)).

(** ** Remote message parsing *)

Definition is_space (c : ascii) : bool :=
  let n := nat_of_ascii c in
  (Nat.eqb n 32 || (Nat.leb 9 n && Nat.leb n 13))%bool.

Definition digit_of (c : ascii) : option Z :=
  let n := Z.of_nat (nat_of_ascii c) in
  if (48 <=? n) && (n <=? 57) then Some (n - 48) else None.

Fixpoint skip_space (s : string) : string :=
  match s with
  | String c r => if is_space c then skip_space r else s
  | EmptyString => s
  end.

Fixpoint read_digits (acc : Z) (s : string) : Z :=
  match s with
  | String c r =>
      match digit_of c with
      | Some d => read_digits (10 * acc + d) r
      | None => acc
      end
  | EmptyString => acc
  end.

Definition saturate_long (z : Z) : Z :=
  if z <? - two31 then - two31 else if two31 <=? z then two31 - 1 else z.

(** Modelled from the spec: [String::toInt()] belongs to the Arduino core and
    is not under src/.  The message body is parsed as a decimal integer; empty
    or non-numeric content parses to zero.  The details are those of the
    core, which calls [atol]: leading white space is skipped, one sign is
    accepted, parsing stops at the first non-digit and the result saturates
    at the bounds of [long]. *)
Definition toInt (s : string) : Z :=
  match skip_space s with
  | String "-"%char r => saturate_long (- read_digits 0 r)
  | String "+"%char r => saturate_long (read_digits 0 r)
  | t => saturate_long (read_digits 0 t)
  end.

(** ** Engine state *)

Inductive EngineState := Inactive | Active.
Inductive Mode := CountUp | CountDown.

(** What the sketch prints on the debug serial line. *)
Inductive SerialOut :=
| Line (text : string)
| Value (n : Z)
| Echo (c : ascii).

Record State := mkState {
  message : string;
  startTime : Z;
  timerDuration : Z;
  cumulativeElapsedTime : Z;
  state : EngineState;
  mode : Mode;
  timeValue : Z;            (* the [static long] of [loop()] *)
  serial : list SerialOut   (* everything printed so far *)
}.

(** Globals after [setup()]: zero-initialised statics, [Inactive], [CountUp]. *)
Definition init : State :=
  mkState EmptyString 0 0 0 Inactive CountUp 0 [].

Definition set_message (m : string) (s : State) : State :=
  mkState m (startTime s) (timerDuration s) (cumulativeElapsedTime s)
          (state s) (mode s) (timeValue s) (serial s).
Definition set_startTime (t : Z) (s : State) : State :=
  mkState (message s) t (timerDuration s) (cumulativeElapsedTime s)
          (state s) (mode s) (timeValue s) (serial s).
Definition set_timerDuration (d : Z) (s : State) : State :=
  mkState (message s) (startTime s) d (cumulativeElapsedTime s)
          (state s) (mode s) (timeValue s) (serial s).
Definition set_cumulativeElapsedTime (c : Z) (s : State) : State :=
  mkState (message s) (startTime s) (timerDuration s) c
          (state s) (mode s) (timeValue s) (serial s).
Definition set_state (e : EngineState) (s : State) : State :=
  mkState (message s) (startTime s) (timerDuration s) (cumulativeElapsedTime s)
          e (mode s) (timeValue s) (serial s).
Definition set_mode (m : Mode) (s : State) : State :=
  mkState (message s) (startTime s) (timerDuration s) (cumulativeElapsedTime s)
          (state s) m (timeValue s) (serial s).
Definition set_timeValue (v : Z) (s : State) : State :=
  mkState (message s) (startTime s) (timerDuration s) (cumulativeElapsedTime s)
          (state s) (mode s) v (serial s).
Definition print (o : SerialOut) (s : State) : State :=
  mkState (message s) (startTime s) (timerDuration s) (cumulativeElapsedTime s)
          (state s) (mode s) (timeValue s) (serial s ++ [o]).

(** ** One tick's input *)

Record Input := mkInput {
  btnStart : bool;          (* [btnStart.pressed()] *)
  btnLeft : bool;           (* [btnLeft.pressed()] *)
  btnRight : bool;          (* [btnRight.pressed()] *)
  incoming : option ascii;  (* the byte read when [SerialBT.available()] *)
  currentTime : Z;          (* [millis()] read at the top of [loop()] *)
  callTime : Z;             (* [millis()] read inside [Start()] or [Stop()] *)
  beat : Z                  (* [beatsin8(20, 0, 40)] *)
}.

(** ** Start, Stop, Reset *)

Definition msg_activated : string := "Timer activated!".
Definition msg_stopped : string := "Timer stopped".
Definition msg_reset : string := "Timer reset".

Definition Start (millis : Z) (s : State) : State :=
  set_startTime (wrap32 millis) (set_state Active (print (Line msg_activated) s)).

Definition Stop (millis : Z) (s : State) : State :=
  let s1 := print (Line msg_stopped) s in
  let s2 := set_cumulativeElapsedTime
              (wrap32 (cumulativeElapsedTime s1 + wrap32 (millis - startTime s1))) s1 in
  set_state Inactive s2.

Definition Reset (s : State) : State :=
  set_state Inactive (set_cumulativeElapsedTime 0 (print (Line msg_reset) s)).

(** ** The body of [loop()] up to the display code *)

Definition newline : ascii := ascii_of_nat 10.

(** [String(incomingChar)]: the core builds it from the NUL-terminated buffer
    [{c, 0}], so the NUL byte gives the empty string. *)
Definition String_of_char (c : ascii) : string :=
  if Ascii.eqb c zero then EmptyString else String c EmptyString.

(** Lines 163-172: at most one byte is taken from the Bluetooth stream. *)
Definition receive (inp : Input) (s : State) : State :=
  match incoming inp with
  | Some c =>
      let s1 := if Ascii.eqb c newline then set_message EmptyString s
                else set_message (message s ++ String_of_char c) s in
      print (Echo c) s1
  | None => s
  end.

(** The toggle condition [btnStart.pressed() || message == "s"]. *)
Definition toggle (inp : Input) (s : State) : bool :=
  btnStart inp || String.eqb (message s) "s".

(** The countdown expression of line 189, in [unsigned long] arithmetic and
    then stored into the [long] [timeValue]. *)
Definition remaining (now : Z) (s : State) : Z :=
  to_long (wrap32 (wrap32 (timerDuration s - wrap32 (wrap32 now - startTime s))
                   - cumulativeElapsedTime s)).

(** The count-up expression of line 202. *)
Definition elapsed (now : Z) (s : State) : Z :=
  to_long (wrap32 (wrap32 (wrap32 now - startTime s) + cumulativeElapsedTime s)).

(** Lines 183-212.  The second component is [timeHue]. *)
Definition active_branch (inp : Input) (s : State) : State * option Z :=
  let '(s1, hue) :=
    match mode s with
    | CountDown =>
        let s1 := set_timeValue (remaining (currentTime inp) s) s in
        let hue := map_range (timeValue s1) 0 (to_long (timerDuration s1)) 0 100 in
        if timeValue s1 <=? 0
        then (set_state Inactive (set_timeValue 0 s1), hue)
        else (s1, hue)
    | CountUp =>
        (set_timeValue (elapsed (currentTime inp) s) s, Some 0)
    end in
  if toggle inp s1 then (Stop (callTime inp) s1, hue) else (s1, hue).

(** Lines 214-246. *)
Definition inactive_branch (inp : Input) (s : State) : State * option Z :=
  let hue := Some (beat inp) in
  let s1 := set_timerDuration (wrap32 (60000 * toInt (message s))) s in
  let s2 := set_timeValue (to_long (timerDuration s1)) s1 in
  let s3 := Reset s2 in
  let s4 :=
    if btnLeft inp then
      let a := if 60000 <=? timerDuration s3
               then set_timerDuration (wrap32 (timerDuration s3 - 60000)) s3
               else s3 in
      let b := set_timeValue (to_long (timerDuration a)) a in
      Reset (print (Value (timeValue b)) b)
    else s3 in
  let s5 :=
    if btnRight inp then
      let a := set_timerDuration (wrap32 (timerDuration s4 + 60000)) s4 in
      let b := set_timeValue (to_long (timerDuration a)) a in
      Reset (print (Value (timeValue b)) b)
    else s4 in
  let s6 :=
    if toggle inp s5 then
      let a := if timerDuration s5 =? 0 then set_mode CountUp s5
               else set_mode CountDown s5 in
      Start (callTime inp) a
    else s5 in
  (s6, hue).

(** Lines 157-246: sample the inputs, then advance the engine. *)
Definition engine (inp : Input) (s : State) : State * option Z :=
  let s0 := receive inp s in
  match state s0 with
  | Active => active_branch inp s0
  | Inactive => inactive_branch inp s0
  end.

Definition tick (inp : Input) (s : State) : State := fst (engine inp s).
Definition tick_hue (inp : Input) (s : State) : option Z := snd (engine inp s).

(** A run of the sketch: the ticks in order, starting from a given state. *)
Fixpoint run (inps : list Input) (s : State) : State :=
  match inps with
  | [] => s
  | i :: r => run r (tick i s)
  end.

(** ** The digit encoder *)

Definition NUM_LEDS_PER_DIGIT : Z := 30.
Definition NUM_LEDS : Z := 120.

(** A FastLED [CHSV] colour; the three channels are [uint8_t].  The strip is
    kept as the list of the [CHSV] values assigned to its cells (FastLED turns
    each into RGB on assignment; that conversion is outside the sketch). *)
Record CHSV := mkCHSV { hue : Z; sat : Z; val : Z }.

Definition chsv (h s v : Z) : CHSV := mkCHSV (to_u8 h) (to_u8 s) (to_u8 v).

Definition set_v (v : Z) (c : CHSV) : CHSV := mkCHSV (hue c) (sat c) (to_u8 v).

(** Reads a binary literal such as [0b0101], most significant bit first. *)
Fixpoint bin_from (acc : Z) (s : string) : Z :=
  match s with
  | String c r => bin_from (2 * acc + (if Ascii.eqb c "1" then 1 else 0)) r
  | EmptyString => acc
  end.
Definition bin (s : string) : Z := bin_from 0 s.

Definition digits : list Z := [
  bin "00011111111111101111111111110000"; (* 0 *)
  bin "00011110000000000000000011110000"; (* 1 *)
  bin "00000001111111100000111111111111"; (* 2 *)
  bin "00011111111000000000111111111111"; (* 3 *)
  bin "00011110000000001111000011111111"; (* 4 *)
  bin "00011111111000001111111100001111"; (* 5 *)
  bin "00011111111111101111111100001111"; (* 6 *)
  bin "00011110000000000000111111110000"; (* 7 *)
  bin "00011111111111101111111111111111"; (* 8 *)
  bin "00011111111000001111111111111111"  (* 9 *)
].

(** [digits[val]]; [None] when the index is outside the table. *)
Definition digit_mask (v : Z) : option Z :=
  if 0 <=? v then digits !! Z.to_nat v else None.

(** [bitRead] on a 32-bit mask; [None] when the shift count is not below 32. *)
Definition mask_bit (mask : Z) (i : Z) : option Z :=
  if (0 <=? i) && (i <? 32) then Some (bitRead mask i) else None.

(** The cell written at iteration [i] for slot [display]. *)
Definition led_index (display i : Z) : Z := display * NUM_LEDS_PER_DIGIT + i.

(** [leds[k] = colour]; [None] when [k] is outside the array. *)
Definition write_led (k : Z) (c : CHSV) (leds : list CHSV) : option (list CHSV) :=
  if (0 <=? k) && (k <? Z.of_nat (length leds))
  then Some (<[Z.to_nat k := c]> leds) else None.

(** The [for] loop of [setDigit], from [i] on, with [n] iterations left.
    [colour] is the by-value parameter the loop keeps overwriting. *)
Fixpoint setDigit_loop (n : nat) (i : Z) (display v : Z) (colour : CHSV)
    (leds : list CHSV) : option (list CHSV) :=
  match n with
  | O => Some leds
  | S n' =>
      mask ← digit_mask v;
      b ← mask_bit mask i;
      let colour' := set_v (b * 255) colour in
      leds' ← write_led (led_index display i) colour' leds;
      setDigit_loop n' (i + 1) display v colour' leds'
  end.

Definition setDigit (display v : Z) (colour : CHSV) (leds : list CHSV)
    : option (list CHSV) :=
  setDigit_loop (Z.to_nat NUM_LEDS_PER_DIGIT) 0 display v colour leds.

(** The values [i] takes in the loop of [setDigit]. *)
Definition loop_indices : list Z :=
  List.map Z.of_nat (seq 0 (Z.to_nat NUM_LEDS_PER_DIGIT)).

(** Lines 249-260 ([DISPLAY_MMSS] is defined): the four [setDigit] calls, as
    (slot, digit value), in the order they are made.  [/] and [%] of C
    truncate towards zero. *)
Definition render_calls (tv : Z) : list (Z * Z) :=
  let seconds := Z.rem (Z.quot tv 1000) 60 in
  let minutes := Z.quot tv 60000 in
  [ (3, Z.rem seconds 10);
    (2, Z.rem (Z.quot seconds 10) 10);
    (1, Z.rem minutes 10);
    (0, Z.rem (Z.quot minutes 10) 10) ].

Fixpoint setDigits (calls : list (Z * Z)) (colour : CHSV) (leds : list CHSV)
    : option (list CHSV) :=
  match calls with
  | [] => Some leds
  | (d, v) :: r => leds' ← setDigit d v colour leds; setDigits r colour leds'
  end.

Definition render (tv timeHue : Z) (leds : list CHSV) : option (list CHSV) :=
  setDigits (render_calls tv) (chsv timeHue 255 255) leds.

(** One whole call of [loop()]: the engine, then the display.  The strip is
    [None] when the tick hit a division by zero or an access out of bounds. *)
Definition loop (inp : Input) (m : State * list CHSV) : State * option (list CHSV) :=
  let '(s, leds) := m in
  let '(s', timeHue) := engine inp s in
  (s', h ← timeHue; render (timeValue s') h leds).

(** ** Traces of a tick *)

(** The lines printed by [Start()] and [Stop()]. *)
Definition is_transition (o : SerialOut) : bool :=
  match o with
  | Line t => String.eqb t msg_activated || String.eqb t msg_stopped
  | _ => false
  end.

Definition is_line (t : string) (o : SerialOut) : bool :=
  match o with
  | Line u => String.eqb u t
  | _ => false
  end.

(** Number of [Start()]/[Stop()] calls a piece of serial output records. *)
Definition transitions (tr : list SerialOut) : nat :=
  length (List.filter is_transition tr).

(** The echo of a received byte (line 171). *)
Definition is_echo (o : SerialOut) : bool :=
  match o with
  | Echo _ => true
  | _ => false
  end.

(** ** Properties of durations *)

Definition minute_multiple (d : Z) : Prop := 0 <= d /\ d mod 60000 = 0.

(** What the engine maintains about the duration: it is an [unsigned long],
    and it is not zero while a countdown is running. *)
Definition duration_sound (s : State) : Prop :=
  0 <= timerDuration s < two32 /\
  (state s = Active -> mode s = CountDown -> timerDuration s <> 0).

(** What the engine maintains about its clock fields: [startTime] is an
    [unsigned long], and nothing is carried over while a session runs. *)
Definition engine_sound (s : State) : Prop :=
  0 <= startTime s < two32 /\
  (state s = Active -> cumulativeElapsedTime s = 0).

(** The other engine state. *)
Definition flip (e : EngineState) : EngineState :=
  match e with
  | Inactive => Active
  | Active => Inactive
  end.

(** The largest number of minutes for which [60000 * message.toInt()] fits a
    [long]; one more [timerDuration += 60000] then still fits the
    [unsigned long]. *)
Definition max_minutes : Z := 35791.

(** Along a run, every tick that begins [Inactive] finds a message buffer
    that parses to a number of minutes between 0 and [max_minutes]. *)
Fixpoint minutes_in_range (inps : list Input) (s : State) : Prop :=
  match inps with
  | [] => True
  | i :: r =>
      (state s = Inactive ->
         0 <= toInt (message (receive i s)) <= max_minutes)
      /\ minutes_in_range r (tick i s)
  end.

(** ** The stages of a tick

    The successive states of the sketch during one call of [loop()], block
    after block in source order: the state the tick begins with, the state
    once the Bluetooth byte is taken, and then the state after each block of
    the branch that runs. *)

(** Lines 185-211: the displayed value (line 189 or 202), the expiry test
    (lines 195-198), the toggle test (lines 209-211). *)
Definition active_stages (inp : Input) (s0 : State) : list State :=
  let s1 :=
    match mode s0 with
    | CountDown => set_timeValue (remaining (currentTime inp) s0) s0
    | CountUp => set_timeValue (elapsed (currentTime inp) s0) s0
    end in
  let s2 :=
    match mode s0 with
    | CountDown =>
        if timeValue s1 <=? 0 then set_state Inactive (set_timeValue 0 s1) else s1
    | CountUp => s1
    end in
  let s3 := if toggle inp s2 then Stop (callTime inp) s2 else s2 in
  [s1; s2; s3].

(** Lines 219-245: the duration taken from the buffer (lines 220-222), the
    Decrease block (225-229), the Increase block (231-235), the start block
    (237-245). *)
Definition inactive_stages (inp : Input) (s0 : State) : list State :=
  let s1 := set_timerDuration (wrap32 (60000 * toInt (message s0))) s0 in
  let s2 := set_timeValue (to_long (timerDuration s1)) s1 in
  let s3 := Reset s2 in
  let s4 :=
    if btnLeft inp then
      let a := if 60000 <=? timerDuration s3
               then set_timerDuration (wrap32 (timerDuration s3 - 60000)) s3
               else s3 in
      let b := set_timeValue (to_long (timerDuration a)) a in
      Reset (print (Value (timeValue b)) b)
    else s3 in
  let s5 :=
    if btnRight inp then
      let a := set_timerDuration (wrap32 (timerDuration s4 + 60000)) s4 in
      let b := set_timeValue (to_long (timerDuration a)) a in
      Reset (print (Value (timeValue b)) b)
    else s4 in
  let s6 :=
    if toggle inp s5 then
      let a := if timerDuration s5 =? 0 then set_mode CountUp s5
               else set_mode CountDown s5 in
      Start (callTime inp) a
    else s5 in
  [s3; s4; s5; s6].

Definition tick_stages (inp : Input) (s : State) : list State :=
  let s0 := receive inp s in
  s :: s0 :: match state s0 with
             | Active => active_stages inp s0
             | Inactive => inactive_stages inp s0
             end.

Definition same_state (a b : EngineState) : bool :=
  match a, b with
  | Inactive, Inactive | Active, Active => true
  | _, _ => false
  end.

(** What was printed between two successive stages. *)
Definition printed (a b : State) : list SerialOut :=
  drop (length (serial a)) (serial b).

(** A step from one stage to the next is a Start/Stop transition when it
    changes the engine state or is a call of [Start()] or [Stop()]. *)
Definition transition_step (a b : State) : bool :=
  negb (same_state (state a) (state b)) || Nat.ltb 0 (transitions (printed a b)).

Fixpoint count_steps (l : list State) : nat :=
  match l with
  | a :: r =>
      match r with
      | b :: _ => (if transition_step a b then 1 else 0) + count_steps r
      | [] => 0
      end
  | [] => 0
  end.

(** The number of Start/Stop transitions processed on one tick. *)
Definition tick_transitions (inp : Input) (s : State) : nat :=
  count_steps (tick_stages inp s).

(** The countdown has reached zero at this tick's clock reading. *)
Definition expired (inp : Input) (s : State) : bool :=
  match state s, mode s with
  | Active, CountDown => remaining (currentTime inp) s <=? 0
  | _, _ => false
  end.

(** ** Sample inputs *)

Definition press (now : Z) : Input := mkInput true false false None now now 0.
Definition idle (now : Z) : Input := mkInput false false false None now now 0.
Definition left (now : Z) : Input := mkInput false true false None now now 0.
Definition right (now : Z) : Input := mkInput false false true None now now 0.
Definition rx (c : ascii) (now : Z) : Input :=
  mkInput false false false (Some c) now now 0.

(** A two-minute countdown started at 100 ms. *)
Definition running_countdown : State :=
  mkState "2" 100 120000 0 Active CountDown 120000 [].

(** A one-minute countdown set through the remote channel (no delimiter
    sent) and started with the button at 20 ms. *)
Definition one_minute_countdown : State := run [rx "1" 0; press 20] init.

Definition dark_strip : list CHSV := repeat (mkCHSV 0 0 0) (Z.to_nat NUM_LEDS).

(** * Proofs *)

(** ** Machine arithmetic *)

Lemma wrap32_range (z : Z) : 0 <= wrap32 z < two32.
Proof. unfold wrap32, two32. apply Z.mod_pos_bound. lia. Qed.

Lemma wrap32_small (z : Z) : 0 <= z < two32 -> wrap32 z = z.
Proof. intros H. unfold wrap32. apply Z.mod_small. exact H. Qed.

Lemma to_long_range (z : Z) : - two31 <= to_long z < two31.
Proof.
  unfold to_long. pose proof (wrap32_range z) as H.
  cbv zeta. destruct (Z.ltb_spec (wrap32 z) two31); unfold two31, two32 in *; lia.
Qed.

Lemma to_long_small (z : Z) : 0 <= z < two31 -> to_long z = z.
Proof.
  intros H. unfold to_long. cbv zeta.
  rewrite wrap32_small by (unfold two31, two32 in *; lia).
  destruct (Z.ltb_spec z two31); lia.
Qed.

Lemma to_long_signed (z : Z) : - two31 <= z < two31 -> to_long (wrap32 z) = z.
Proof.
  intros H. unfold to_long, wrap32, two31, two32 in *. cbv zeta.
  rewrite Z.mod_mod by lia.
  destruct (Z.ltb_spec (z mod 4294967296) 2147483648) as [L|L].
  - destruct (Z.le_gt_cases 0 z).
    + apply Z.mod_small. lia.
    + rewrite <- (Z.mod_add z 1) in L by lia.
      rewrite Z.mod_small in L by lia. lia.
  - destruct (Z.le_gt_cases 0 z).
    + rewrite Z.mod_small in L by lia. lia.
    + rewrite <- (Z.mod_add z 1) by lia.
      rewrite Z.mod_small by lia. lia.
Qed.

Lemma to_long_zero (z : Z) : 0 <= z < two32 -> to_long z = 0 -> z = 0.
Proof.
  intros H. unfold to_long. cbv zeta. rewrite wrap32_small by exact H.
  destruct (Z.ltb_spec z two31); unfold two31, two32 in *; lia.
Qed.

(** ** What [receive] leaves alone *)

Lemma receive_fields (inp : Input) (s : State) :
  state (receive inp s) = state s /\
  mode (receive inp s) = mode s /\
  timerDuration (receive inp s) = timerDuration s /\
  cumulativeElapsedTime (receive inp s) = cumulativeElapsedTime s /\
  startTime (receive inp s) = startTime s /\
  timeValue (receive inp s) = timeValue s.
Proof.
  unfold receive. destruct (incoming inp) as [c|]; [|tauto].
  destruct (Ascii.eqb c newline); simpl; tauto.
Qed.

Lemma remaining_receive (inp : Input) (now : Z) (s : State) :
  remaining now (receive inp s) = remaining now s.
Proof.
  destruct (receive_fields inp s) as (_ & _ & Hd & Hc & Ht & _).
  unfold remaining. rewrite Hd, Hc, Ht. reflexivity.
Qed.

(** ** The countdown tick *)

Lemma remaining_exact (now : Z) (s : State) :
  0 <= startTime s <= now -> now < two32 ->
  - two31 <= timerDuration s - (now - startTime s) - cumulativeElapsedTime s < two31 ->
  remaining now s = timerDuration s - (now - startTime s) - cumulativeElapsedTime s.
Proof.
  intros Ht Hn Hq. unfold remaining.
  rewrite (wrap32_small now) by lia.
  rewrite (wrap32_small (now - startTime s)) by lia.
  replace (wrap32 (wrap32 (timerDuration s - (now - startTime s))
                   - cumulativeElapsedTime s))
    with (wrap32 (timerDuration s - (now - startTime s) - cumulativeElapsedTime s))
    by (unfold wrap32; symmetry; apply Zminus_mod_idemp_l).
  apply to_long_signed. exact Hq.
Qed.

Lemma tick_active_countdown (inp : Input) (s : State) :
  state s = Active -> mode s = CountDown ->
  let q := remaining (currentTime inp) s in
  let s0 := receive inp s in
  let s1 := if q <=? 0 then set_state Inactive (set_timeValue 0 s0)
            else set_timeValue q s0 in
  tick inp s = if toggle inp s1 then Stop (callTime inp) s1 else s1.
Proof.
  intros Hs Hm. cbv zeta.
  destruct (receive_fields inp s) as (Hs0 & Hm0 & _).
  unfold tick, engine. rewrite Hs0, Hs. unfold active_branch. rewrite Hm0, Hm.
  cbn [timeValue set_timeValue]. rewrite remaining_receive.
  destruct (receive inp s) as [m st d c e md tv out].
  destruct (remaining (currentTime inp) s <=? 0); unfold toggle; cbn;
    destruct (btnStart inp || String.eqb m "s"); reflexivity.
Qed.

(** C4: while Active in CountDown mode a tick computes
    Duration - (now - SessionStart) - CumulativeElapsed (line 189, evaluated in
    [unsigned long] and stored into a [long]); when that value is <= 0 the
    displayed value is 0 and the engine is Inactive at the end of the same
    tick, otherwise the displayed value is that value; so the displayed value
    is never negative.  The last part relates the machine value to the exact
    integer difference when the latter fits a [long]. *)
Theorem countdown_tick_clamps (inp : Input) (s : State) :
  state s = Active -> mode s = CountDown ->
  (remaining (currentTime inp) s <= 0 ->
     timeValue (tick inp s) = 0 /\ state (tick inp s) = Inactive) /\
  (0 < remaining (currentTime inp) s ->
     timeValue (tick inp s) = remaining (currentTime inp) s) /\
  0 <= timeValue (tick inp s) /\
  (0 <= startTime s <= currentTime inp -> currentTime inp < two32 ->
   - two31 <= timerDuration s - (currentTime inp - startTime s)
              - cumulativeElapsedTime s < two31 ->
   remaining (currentTime inp) s =
     timerDuration s - (currentTime inp - startTime s) - cumulativeElapsedTime s).
Proof.
  intros Hs Hm. rewrite (tick_active_countdown inp s Hs Hm).
  split; [|split; [|split]].
  - intros Hq. apply Z.leb_le in Hq. rewrite Hq.
    destruct (toggle inp _); split; reflexivity.
  - intros Hq. apply Z.leb_gt in Hq. rewrite Hq.
    destruct (toggle inp _); reflexivity.
  - destruct (Z.leb_spec (remaining (currentTime inp) s) 0);
      destruct (toggle inp _); cbn; lia.
  - apply remaining_exact.
Qed.

(** The theorem above at a running two-minute countdown, 1500 ms in. *)
Lemma countdown_tick_clamps_witness :
  state running_countdown = Active /\ mode running_countdown = CountDown /\
  timeValue (tick (idle 1600) running_countdown) = 118500.
Proof.
  split; [reflexivity | split; [reflexivity |]].
  destruct (countdown_tick_clamps (idle 1600) running_countdown
              eq_refl eq_refl) as (_ & H & _).
  rewrite H; reflexivity.
Defined.

(** ** Countdown expiry *)

Lemma toggle_message (inp : Input) (s1 s2 : State) :
  message s1 = message s2 -> toggle inp s1 = toggle inp s2.
Proof. intros H. unfold toggle. rewrite H. reflexivity. Qed.

(** C5, as stated, fails: at the tick on which a one-minute countdown
    expires, the engine becomes Inactive but CumulativeElapsed stays 0, whereas
    [Stop()] at the same instant would have made it 60000. *)
Lemma expiry_is_not_stop :
  let s := one_minute_countdown in
  let s' := tick (idle 60020) s in
  state s = Active /\ mode s = CountDown /\
  remaining 60020 s = 0 /\ state s' = Inactive /\
  cumulativeElapsedTime s' = 0 /\
  cumulativeElapsedTime (Stop 60020 s) = 60000 /\
  cumulativeElapsedTime s' <> cumulativeElapsedTime (Stop 60020 s).
Proof. vm_compute. repeat split; discriminate. Qed.

(** C5 (amended): when a countdown reaches zero the tick sets the displayed
    value to 0 and the state to Inactive without calling [Stop()]:
    CumulativeElapsed is left as it was, unless a toggle event is present on
    that same tick, in which case [Stop()] runs and adds the time since
    SessionStart. *)
Theorem expiry_keeps_cumulative (inp : Input) (s : State) :
  state s = Active -> mode s = CountDown ->
  remaining (currentTime inp) s <= 0 ->
  state (tick inp s) = Inactive /\
  timeValue (tick inp s) = 0 /\
  cumulativeElapsedTime (tick inp s) =
    if toggle inp (receive inp s)
    then wrap32 (cumulativeElapsedTime s + wrap32 (callTime inp - startTime s))
    else cumulativeElapsedTime s.
Proof.
  intros Hs Hm Hq. rewrite (tick_active_countdown inp s Hs Hm).
  apply Z.leb_le in Hq. rewrite Hq.
  destruct (receive_fields inp s) as (_ & _ & _ & Hc & Ht & _).
  rewrite <- Hc, <- Ht.
  rewrite (toggle_message inp _ (receive inp s)) by reflexivity.
  destruct (toggle inp (receive inp s)); repeat split; reflexivity.
Qed.

Lemma expiry_keeps_cumulative_witness :
  state one_minute_countdown = Active /\
  mode one_minute_countdown = CountDown /\
  remaining (currentTime (idle 60020)) one_minute_countdown <= 0 /\
  cumulativeElapsedTime (tick (idle 60020) one_minute_countdown) = 0.
Proof.
  split; [reflexivity | split; [reflexivity | split; [vm_compute; discriminate |]]].
  destruct (expiry_keeps_cumulative (idle 60020) one_minute_countdown
              eq_refl eq_refl) as (_ & _ & H).
  - vm_compute; discriminate.
  - rewrite H. reflexivity.
Defined.

(** ** What a tick does to the duration *)

Lemma tick_active_keeps (inp : Input) (s : State) :
  state s = Active ->
  timerDuration (tick inp s) = timerDuration s /\ mode (tick inp s) = mode s.
Proof.
  intros Hs.
  destruct (receive_fields inp s) as (Hs0 & Hm0 & Hd0 & _).
  unfold tick, engine. rewrite Hs0, Hs. unfold active_branch, toggle.
  rewrite <- Hd0, <- Hm0.
  destruct (receive inp s) as [m st d c e md tv out]. cbn.
  destruct md; cbn.
  - destruct (btnStart inp || String.eqb m "s"); split; reflexivity.
  - destruct (remaining (currentTime inp) _ <=? 0); cbn;
      destruct (btnStart inp || String.eqb m "s"); split; reflexivity.
Qed.

Lemma tick_inactive (inp : Input) (s : State) :
  state s = Inactive ->
  let d0 := wrap32 (60000 * toInt (message (receive inp s))) in
  let d1 := if btnLeft inp
            then (if 60000 <=? d0 then wrap32 (d0 - 60000) else d0) else d0 in
  let d2 := if btnRight inp then wrap32 (d1 + 60000) else d1 in
  timerDuration (tick inp s) = d2 /\
  cumulativeElapsedTime (tick inp s) = 0 /\
  state (tick inp s) = (if toggle inp (receive inp s) then Active else Inactive) /\
  (toggle inp (receive inp s) = true ->
     mode (tick inp s) = if d2 =? 0 then CountUp else CountDown).
Proof.
  intros Hs. cbv zeta.
  destruct (receive_fields inp s) as (Hs0 & _).
  unfold tick, engine. rewrite Hs0, Hs. unfold inactive_branch, toggle.
  destruct (receive inp s) as [m st d c e md tv out]. cbn.
  destruct (btnLeft inp); cbn;
    [destruct (60000 <=? wrap32 (60000 * toInt m)); cbn|];
    destruct (btnRight inp); cbn;
    destruct (btnStart inp || String.eqb m "s"); cbn;
    try match goal with |- context [?x =? 0] => destruct (x =? 0) end;
    repeat split; try reflexivity; discriminate.
Qed.

Lemma minute_multiple_mul (k : Z) : 0 <= k -> minute_multiple (60000 * k).
Proof.
  intros H. split; [lia|]. rewrite Z.mul_comm. apply Z.mod_mul. lia.
Qed.

Lemma minute_multiple_intro (d k : Z) :
  0 <= k -> d = 60000 * k -> minute_multiple d.
Proof. intros H ->. apply minute_multiple_mul. exact H. Qed.

Lemma tick_minute_multiple (inp : Input) (s : State) :
  (state s = Inactive -> 0 <= toInt (message (receive inp s)) <= max_minutes) ->
  minute_multiple (timerDuration s) ->
  minute_multiple (timerDuration (tick inp s)).
Proof.
  intros Hn Hd. destruct (state s) eqn:Hs.
  - destruct (tick_inactive inp s Hs) as (-> & _).
    specialize (Hn eq_refl). unfold max_minutes in Hn.
    set (n := toInt (message (receive inp s))) in *.
    rewrite (wrap32_small (60000 * n)) by (unfold two32; lia).
    destruct (btnLeft inp), (btnRight inp);
      try destruct (Z.leb_spec 60000 (60000 * n));
      repeat match goal with
             | |- context [wrap32 ?z] =>
                 rewrite (wrap32_small z) by (unfold two32; lia)
             end.
    all: first [ apply (minute_multiple_intro _ n); lia
               | apply (minute_multiple_intro _ (n + 1)); lia
               | apply (minute_multiple_intro _ (n - 1)); lia ].
  - destruct (tick_active_keeps inp s Hs) as (-> & _). exact Hd.
Qed.

(** C6: once the bytes "-1" have arrived, the buffer parses to -1 and the
    idle tick stores 60000 * (-1) into the unsigned [timerDuration] (line
    220), that is 2^32 - 60000, which is no multiple of 60000; nothing on
    this path guards the wrap, as line 226 does for Decrease.  The displayed
    value is then -60000, the minutes digit is -1 and the display code reads
    [digits[-1]]. *)
Theorem negative_minutes_break_multiple :
  toInt (message (run [rx "-" 0; rx "1" 20] init)) = -1 /\
  timerDuration (run [rx "-" 0; rx "1" 20] init) = 4294907296 /\
  ~ minute_multiple (timerDuration (run [rx "-" 0; rx "1" 20] init)) /\
  timeValue (run [rx "-" 0; rx "1" 20] init) = -60000 /\
  In (1, -1) (render_calls (timeValue (run [rx "-" 0; rx "1" 20] init))) /\
  digit_mask (-1) = None /\
  render (timeValue (run [rx "-" 0; rx "1" 20] init)) 0 dark_strip = None.
Proof.
  split; [reflexivity | split; [reflexivity | split]].
  - intros [_ H]. vm_compute in H. discriminate.
  - split; [reflexivity | split; [| split; reflexivity]].
    vm_compute. right. right. left. reflexivity.
Qed.

(** X18: along every run from power-up on which each tick that begins
    Inactive finds a message buffer parsing to a number of minutes between 0
    and 35791 (so that line 220 overflows neither the [long] product nor the
    [unsigned long]), the duration is a non-negative multiple of 60000 ms,
    whatever buttons are pressed. *)
Theorem duration_minute_multiple (inps : list Input) :
  minutes_in_range inps init ->
  minute_multiple (timerDuration (run inps init)).
Proof.
  assert (G : forall s, minute_multiple (timerDuration s) ->
                        minutes_in_range inps s ->
                        minute_multiple (timerDuration (run inps s))).
  { induction inps as [|i r IH]; intros s Hd Hr; [exact Hd|].
    destruct Hr as [Hi Hr]. cbn [run]. apply IH; [|exact Hr].
    apply tick_minute_multiple; assumption. }
  apply G. split; [cbn; lia | reflexivity].
Qed.

Lemma duration_minute_multiple_witness :
  minutes_in_range [rx "5" 0; right 20; press 40; idle 60] init /\
  minute_multiple
    (timerDuration (run [rx "5" 0; right 20; press 40; idle 60] init)).
Proof.
  assert (H : minutes_in_range [rx "5" 0; right 20; press 40; idle 60] init).
  { cbn [minutes_in_range].
    repeat (split; [intros _; vm_compute; split; discriminate |]). exact I. }
  split; [exact H | apply (duration_minute_multiple _ H)].
Defined.

(** ** The duration while a countdown runs *)

Lemma tick_duration_sound (inp : Input) (s : State) :
  duration_sound s -> duration_sound (tick inp s).
Proof.
  intros [Hr Hz]. destruct (state s) eqn:Hs.
  - destruct (tick_inactive inp s Hs) as (Hd & _ & Hst & Hmd).
    cbv zeta in Hd, Hmd.
    set (d2 := if btnRight inp then _ else _) in Hd, Hmd.
    assert (R : 0 <= d2 < two32).
    { subst d2. destruct (btnRight inp); [apply wrap32_range|].
      destruct (btnLeft inp); [|apply wrap32_range].
      destruct (60000 <=? _); apply wrap32_range. }
    split; [rewrite Hd; exact R|].
    intros Ha Hc. rewrite Hst in Ha.
    destruct (toggle inp (receive inp s)); [|discriminate].
    rewrite (Hmd eq_refl) in Hc. rewrite Hd.
    destruct (Z.eqb_spec d2 0); [discriminate | assumption].
  - destruct (tick_active_keeps inp s Hs) as (Hd & Hm).
    split; [rewrite Hd; exact Hr|].
    intros Ha Hc. rewrite Hd. rewrite Hm in Hc. apply Hz; [reflexivity | exact Hc].
Qed.

Lemma run_duration_sound (inps : list Input) (s : State) :
  duration_sound s -> duration_sound (run inps s).
Proof.
  revert s. induction inps as [|i r IH]; intros s H; [exact H|].
  cbn [run]. apply IH. apply tick_duration_sound. exact H.
Qed.

Lemma init_duration_sound : duration_sound init.
Proof. split; [cbn; unfold two32; lia | discriminate]. Qed.

Lemma tick_hue_countdown (inp : Input) (s : State) :
  state s = Active -> mode s = CountDown ->
  tick_hue inp s =
    map_range (remaining (currentTime inp) s) 0 (to_long (timerDuration s)) 0 100.
Proof.
  intros Hs Hm.
  destruct (receive_fields inp s) as (Hs0 & Hm0 & Hd0 & _).
  unfold tick_hue, engine. rewrite Hs0, Hs. unfold active_branch. rewrite Hm0, Hm.
  cbn [timeValue set_timeValue]. rewrite remaining_receive, <- Hd0.
  destruct (receive inp s) as [m st d c e md tv out]. unfold toggle. cbn.
  destruct (remaining (currentTime inp) s <=? 0); cbn;
    destruct (btnStart inp || String.eqb m "s"); reflexivity.
Qed.

(** C9: in every state reachable from power-up in which the engine is Active
    in CountDown mode, [timerDuration] is positive, and the hue computation
    [map(timeValue, 0, timerDuration, 0, 100)] of the next tick does not
    divide by zero: it yields a value. *)
Theorem countdown_duration_positive (inps : list Input) :
  state (run inps init) = Active -> mode (run inps init) = CountDown ->
  0 < timerDuration (run inps init) /\
  forall inp : Input, exists h : Z, tick_hue inp (run inps init) = Some h.
Proof.
  intros Hs Hm.
  destruct (run_duration_sound inps init init_duration_sound) as [Hr Hz].
  specialize (Hz Hs Hm).
  split; [lia|]. intros inp. rewrite (tick_hue_countdown inp _ Hs Hm).
  unfold map_range.
  destruct (Z.eqb_spec (to_long (timerDuration (run inps init)) - 0) 0) as [E|E].
  - exfalso. apply Hz. apply to_long_zero; [exact Hr | lia].
  - eexists. reflexivity.
Qed.

Lemma countdown_duration_positive_witness :
  state (run [rx "1" 0; press 20] init) = Active /\
  mode (run [rx "1" 0; press 20] init) = CountDown /\
  0 < timerDuration (run [rx "1" 0; press 20] init).
Proof.
  split; [reflexivity | split; [reflexivity |]].
  apply (countdown_duration_positive [rx "1" 0; press 20]); reflexivity.
Defined.

(** ** What a tick prints, and in which order it works *)

Ltac split_conditions :=
  repeat match goal with
         | |- context [if ?b then _ else _] =>
             lazymatch b with
             | context [if _ then _ else _] => fail
             | _ => destruct b eqn:?
             end
         end.

Lemma tick_message (inp : Input) (s : State) :
  message (tick inp s) = message (receive inp s).
Proof.
  unfold tick, engine, active_branch, inactive_branch, toggle.
  destruct (receive inp s) as [m st d c e md tv out]. cbn.
  destruct e, md; cbn; split_conditions; reflexivity.
Qed.

(** How each operation acts on the serial output and on the buffer. *)

Lemma serial_print (o : SerialOut) (s : State) :
  serial (print o s) = serial s ++ [o].
Proof. reflexivity. Qed.

Lemma serial_Reset (s : State) : serial (Reset s) = serial s ++ [Line msg_reset].
Proof. reflexivity. Qed.

Lemma serial_Start (t : Z) (s : State) :
  serial (Start t s) = serial s ++ [Line msg_activated].
Proof. reflexivity. Qed.

Lemma serial_Stop (t : Z) (s : State) :
  serial (Stop t s) = serial s ++ [Line msg_stopped].
Proof. reflexivity. Qed.

Lemma serial_set_timerDuration (d : Z) (s : State) :
  serial (set_timerDuration d s) = serial s.
Proof. reflexivity. Qed.

Lemma serial_set_timeValue (v : Z) (s : State) :
  serial (set_timeValue v s) = serial s.
Proof. reflexivity. Qed.

Lemma serial_set_state (e : EngineState) (s : State) :
  serial (set_state e s) = serial s.
Proof. reflexivity. Qed.

Lemma serial_set_mode (m : Mode) (s : State) : serial (set_mode m s) = serial s.
Proof. reflexivity. Qed.

Lemma message_print (o : SerialOut) (s : State) : message (print o s) = message s.
Proof. reflexivity. Qed.

Lemma message_Reset (s : State) : message (Reset s) = message s.
Proof. reflexivity. Qed.

Lemma message_set_timerDuration (d : Z) (s : State) :
  message (set_timerDuration d s) = message s.
Proof. reflexivity. Qed.

Lemma message_set_timeValue (v : Z) (s : State) :
  message (set_timeValue v s) = message s.
Proof. reflexivity. Qed.

Lemma message_set_state (e : EngineState) (s : State) :
  message (set_state e s) = message s.
Proof. reflexivity. Qed.

Lemma message_set_mode (m : Mode) (s : State) : message (set_mode m s) = message s.
Proof. reflexivity. Qed.

Create Rewrite HintDb frame.

#[local] Hint Rewrite serial_print serial_Reset serial_Start serial_Stop
  serial_set_timerDuration serial_set_timeValue serial_set_state serial_set_mode
  message_print message_Reset message_set_timerDuration message_set_timeValue
  message_set_state message_set_mode : frame.

Ltac same_toggle s0 :=
  match goal with
  | |- context [toggle ?i ?x] =>
      lazymatch x with
      | s0 => fail
      | _ => rewrite (toggle_message i x s0) by (autorewrite with frame; reflexivity)
      end
  end.

Ltac close_trace Hpre F1 F2 F3 :=
  autorewrite with frame; rewrite Hpre; repeat rewrite <- app_assoc;
  eexists; (split; [reflexivity |]);
  unfold transitions; repeat rewrite List.filter_app; rewrite ?F1, ?F2, ?F3;
  repeat split; try reflexivity; discriminate.

Lemma tick_serial (inp : Input) (s : State) :
  exists out : list SerialOut,
    serial (tick inp s) = serial s ++ out /\
    transitions out = (if toggle inp (receive inp s) then 1 else 0)%nat /\
    (state s = Inactive -> List.filter (is_line msg_stopped) out = []) /\
    (state s = Active -> List.filter (is_line msg_activated) out = []).
Proof.
  assert (R : exists pre, serial (receive inp s) = serial s ++ pre /\
                          List.filter is_transition pre = [] /\
                          List.filter (is_line msg_stopped) pre = [] /\
                          List.filter (is_line msg_activated) pre = []).
  { unfold receive. destruct (incoming inp) as [ch|].
    - exists [Echo ch]. destruct (Ascii.eqb ch newline); repeat split; reflexivity.
    - exists []. rewrite app_nil_r. repeat split; reflexivity. }
  destruct R as (pre & Hpre & F1 & F2 & F3).
  destruct (receive_fields inp s) as (Hs0 & _).
  unfold tick, engine. rewrite <- Hs0.
  set (s0 := receive inp s) in *. clearbody s0.
  destruct (state s0).
  - unfold inactive_branch. cbv zeta. cbn [fst].
    destruct (btnLeft inp); [destruct (60000 <=? _)|];
      destruct (btnRight inp);
      same_toggle s0; destruct (toggle inp s0);
      try match goal with |- context [?x =? 0] => destruct (x =? 0) end;
      close_trace Hpre F1 F2 F3.
  - unfold active_branch.
    destruct (mode s0); [|destruct (timeValue _ <=? 0)];
      same_toggle s0; destruct (toggle inp s0); cbn [fst];
      close_trace Hpre F1 F2 F3.
Qed.

(** ** The digit encoder *)

Lemma bitRead_testbit (mask i : Z) :
  bitRead mask i = if Z.testbit mask i then 1 else 0.
Proof.
  unfold bitRead. change 1 with (Z.ones 1) at 1.
  rewrite Z.land_ones by lia. change (2 ^ 1) with 2.
  rewrite <- Z.bit0_mod, Z.bit0_odd, <- Z.testbit_odd.
  destruct (Z.testbit mask i); reflexivity.
Qed.

Lemma digit_mask_defined (v : Z) :
  0 <= v <= 9 -> exists mask, digit_mask v = Some mask /\ digits !! Z.to_nat v = Some mask.
Proof.
  intros H. unfold digit_mask.
  destruct (Z.leb_spec 0 v); [|lia].
  assert (L : (Z.to_nat v < length digits)%nat) by (cbn; lia).
  destruct (lookup_lt_is_Some_2 digits _ L) as [mask Hm].
  exists mask. split; exact Hm.
Qed.

Lemma led_index_succ (d i : Z) : led_index d (i + 1) = led_index d i + 1.
Proof. unfold led_index. lia. Qed.

Lemma setDigit_loop_spec (n : nat) :
  forall (i d v : Z) (c : CHSV) (leds : list CHSV) (mask : Z),
    digit_mask v = Some mask ->
    0 <= i -> i + Z.of_nat n <= 32 ->
    0 <= led_index d i ->
    led_index d i + Z.of_nat n <= Z.of_nat (length leds) ->
    exists leds',
      setDigit_loop n i d v c leds = Some leds' /\
      length leds' = length leds /\
      (forall j, i <= j < i + Z.of_nat n ->
         leds' !! Z.to_nat (led_index d j) =
           Some (mkCHSV (hue c) (sat c) (to_u8 (bitRead mask j * 255)))) /\
      (forall k : nat,
         Z.of_nat k < led_index d i \/ led_index d i + Z.of_nat n <= Z.of_nat k ->
         leds' !! k = leds !! k).
Proof.
  induction n as [|n IH]; intros i d v c leds mask Hm Hi Hn Hlo Hhi.
  - exists leds.
    split; [reflexivity | split; [reflexivity | split]];
      [intros j Hj; lia | reflexivity].
  - cbn [setDigit_loop]. rewrite Hm. cbn [mbind option_bind].
    unfold mask_bit.
    replace ((0 <=? i) && (i <? 32)) with true
      by (symmetry; apply andb_true_intro; split;
          [apply Z.leb_le | apply Z.ltb_lt]; lia).
    cbn [mbind option_bind]. unfold write_led.
    replace ((0 <=? led_index d i) && (led_index d i <? Z.of_nat (length leds)))
      with true
      by (symmetry; apply andb_true_intro; split;
          [apply Z.leb_le | apply Z.ltb_lt]; lia).
    cbn [mbind option_bind].
    set (c' := set_v (bitRead mask i * 255) c).
    set (leds1 := <[Z.to_nat (led_index d i) := c']> leds).
    assert (L1 : length leds1 = length leds) by apply length_insert.
    destruct (IH (i + 1) d v c' leds1 mask Hm) as (leds' & E & L & In_ & Out);
      try (rewrite ?led_index_succ, ?L1; lia).
    exists leds'. split; [exact E | split; [congruence | split]].
    + intros j Hj. destruct (Z.eq_dec j i) as [->|Hne].
      * rewrite Out by (rewrite led_index_succ; lia).
        subst leds1. rewrite list_lookup_insert_eq by lia. reflexivity.
      * rewrite In_ by lia. reflexivity.
    + intros k Hk. rewrite Out by (rewrite led_index_succ; lia).
      subst leds1. apply list_lookup_insert_ne. lia.
Qed.

Lemma setDigit_block (d v : Z) (c : CHSV) (leds : list CHSV) :
  0 <= v <= 9 -> 0 <= d <= 3 -> length leds = Z.to_nat NUM_LEDS ->
  exists (mask : Z) (leds' : list CHSV),
    digits !! Z.to_nat v = Some mask /\
    setDigit d v c leds = Some leds' /\
    length leds' = length leds /\
    forall i, 0 <= i < NUM_LEDS_PER_DIGIT ->
      leds' !! Z.to_nat (led_index d i) =
        Some (mkCHSV (hue c) (sat c) (to_u8 (bitRead mask i * 255))).
Proof.
  intros Hv Hd Hl.
  destruct (digit_mask_defined v Hv) as (mask & Hm & Hg).
  destruct (setDigit_loop_spec (Z.to_nat NUM_LEDS_PER_DIGIT) 0 d v c leds mask Hm)
    as (leds' & E & L & In_ & _);
    try (unfold led_index, NUM_LEDS_PER_DIGIT, NUM_LEDS in *; lia).
  exists mask, leds'. split; [exact Hg | split; [exact E | split; [exact L|]]].
  intros i Hi. apply In_. unfold NUM_LEDS_PER_DIGIT in *. lia.
Qed.

(** C7: for every digit value 0-9, slot 0-3 and base colour, [setDigit]
    leaves cell [i] of the slot's block with value 255 when bit [i] of
    [digits[v]] is set and with value 0 otherwise, hue and saturation being
    those of the base colour. *)
Theorem setDigit_cells (d v : Z) (c : CHSV) (leds : list CHSV) :
  0 <= v <= 9 -> 0 <= d <= 3 -> length leds = Z.to_nat NUM_LEDS ->
  exists (mask : Z) (leds' : list CHSV),
    digits !! Z.to_nat v = Some mask /\
    setDigit d v c leds = Some leds' /\
    length leds' = length leds /\
    forall i, 0 <= i < NUM_LEDS_PER_DIGIT ->
      leds' !! Z.to_nat (led_index d i) =
        Some (mkCHSV (hue c) (sat c) (if Z.testbit mask i then 255 else 0)).
Proof.
  intros Hv Hd Hl.
  destruct (setDigit_block d v c leds Hv Hd Hl) as (mask & leds' & Hg & E & L & Cells).
  exists mask, leds'. split; [exact Hg | split; [exact E | split; [exact L|]]].
  intros i Hi. rewrite (Cells i Hi), bitRead_testbit.
  destruct (Z.testbit mask i); reflexivity.
Qed.

Lemma setDigit_cells_witness :
  0 <= 7 <= 9 /\ 0 <= 2 <= 3 /\ length dark_strip = Z.to_nat NUM_LEDS /\
  exists (mask : Z) (leds' : list CHSV),
    digits !! Z.to_nat 7 = Some mask /\
    setDigit 2 7 (chsv 96 255 255) dark_strip = Some leds' /\
    length leds' = length dark_strip /\
    forall i, 0 <= i < NUM_LEDS_PER_DIGIT ->
      leds' !! Z.to_nat (led_index 2 i) =
        Some (mkCHSV (hue (chsv 96 255 255)) (sat (chsv 96 255 255))
                     (if Z.testbit mask i then 255 else 0)).
Proof.
  split; [lia | split; [lia | split; [reflexivity |]]].
  apply (setDigit_cells 2 7 (chsv 96 255 255) dark_strip); [lia | lia | reflexivity].
Defined.

(** ** The display code stays inside the strip *)

Lemma loop_indices_range (i : Z) : In i loop_indices -> 0 <= i <= 29.
Proof.
  unfold loop_indices. intros H. apply in_map_iff in H.
  destruct H as (k & <- & Hk). apply in_seq in Hk.
  unfold NUM_LEDS_PER_DIGIT in Hk. lia.
Qed.

Lemma rem10_digit (z : Z) : 0 <= z -> 0 <= Z.rem z 10 <= 9.
Proof. intros H. pose proof (Z.rem_bound_pos z 10 H). lia. Qed.

Lemma render_calls_range (tv d v : Z) :
  In (d, v) (render_calls tv) ->
  0 <= d <= 3 /\ (0 <= tv -> 0 <= v <= 9).
Proof.
  unfold render_calls. cbv zeta. intros H.
  assert (Q : forall a b, 0 <= a -> 0 < b -> 0 <= Z.quot a b)
    by (intros a b Ha Hb; apply Z.quot_pos; lia).
  assert (R60 : 0 <= tv -> 0 <= Z.rem (Z.quot tv 1000) 60).
  { intros Ht. assert (P : 0 <= Z.quot tv 1000) by (apply Q; lia).
    pose proof (Z.rem_bound_pos (Z.quot tv 1000) 60 P). lia. }
  cbn [In] in H.
  destruct H as [H|[H|[H|[H|[]]]]]; inversion H; subst; clear H;
    (split; [lia|]); intros Ht; apply rem10_digit;
    repeat first [ apply R60 | apply Q | assumption | lia ].
Qed.

Lemma setDigits_succeed (calls : list (Z * Z)) :
  forall (c : CHSV) (leds : list CHSV),
    (forall d v, In (d, v) calls -> 0 <= d <= 3 /\ 0 <= v <= 9) ->
    length leds = Z.to_nat NUM_LEDS ->
    exists leds', setDigits calls c leds = Some leds' /\
                  length leds' = Z.to_nat NUM_LEDS.
Proof.
  induction calls as [|[d v] r IH]; intros c leds Hc Hl.
  - exists leds. split; [reflexivity | exact Hl].
  - destruct (Hc d v (or_introl eq_refl)) as [Hd Hv].
    destruct (setDigit_block d v c leds Hv Hd Hl) as (mask & leds1 & _ & E & L & _).
    cbn [setDigits]. rewrite E. cbn [mbind option_bind].
    apply IH; [|congruence].
    intros d' v' H. apply Hc. right. exact H.
Qed.

(** C10: every [setDigit] call of the display code has its slot in 0-3 and,
    the displayed value being non-negative, its digit value in 0-9; in such a
    call every loop index [i] lies in 0-29, so [bitRead] reads bits 0-29 only,
    and every cell index [display*NUM_LEDS_PER_DIGIT + i] lies in [0, 119];
    accordingly the call, and the whole display step, completes on a strip of
    120 cells without any access out of bounds. *)
Theorem render_within_strip (tv : Z) :
  (forall d v, In (d, v) (render_calls tv) ->
     0 <= d <= 3 /\
     (0 <= tv -> 0 <= v <= 9) /\
     (forall i, In i loop_indices ->
        0 <= i <= 29 /\ 0 <= led_index d i <= 119) /\
     (forall (c : CHSV) (leds : list CHSV),
        0 <= v <= 9 -> length leds = Z.to_nat NUM_LEDS ->
        exists leds', setDigit d v c leds = Some leds' /\
                      length leds' = Z.to_nat NUM_LEDS)) /\
  (forall (timeHue : Z) (leds : list CHSV),
     0 <= tv -> length leds = Z.to_nat NUM_LEDS ->
     exists leds', render tv timeHue leds = Some leds' /\
                   length leds' = Z.to_nat NUM_LEDS).
Proof.
  split.
  - intros d v H. destruct (render_calls_range tv d v H) as [Hd Hv].
    split; [exact Hd | split; [exact Hv | split]].
    + intros i Hi. apply loop_indices_range in Hi.
      unfold led_index, NUM_LEDS_PER_DIGIT. lia.
    + intros c leds Hv' Hl.
      destruct (setDigit_block d v c leds Hv' Hd Hl) as (mask & leds' & _ & E & L & _).
      exists leds'. split; [exact E | congruence].
  - intros timeHue leds Ht Hl. unfold render.
    apply setDigits_succeed; [|exact Hl].
    intros d v H. destruct (render_calls_range tv d v H) as [Hd Hv]. auto.
Qed.

Lemma render_within_strip_witness :
  0 <= 754000 /\ length dark_strip = Z.to_nat NUM_LEDS /\
  exists leds', render 754000 96 dark_strip = Some leds' /\
                length leds' = Z.to_nat NUM_LEDS.
Proof.
  split; [lia | split; [reflexivity |]].
  apply (proj2 (render_within_strip 754000) 96 dark_strip); [lia | reflexivity].
Defined.

(** ** The end-to-end scenarios, evaluated on the sketch

    Lines 220-222 run on every tick that begins Inactive: the duration is
    taken afresh from the message buffer and [Reset()] is called, whatever
    happened before. *)

Lemma idle_tick_overwrites (inp : Input) (s : State) :
  state s = Inactive -> btnLeft inp = false -> btnRight inp = false ->
  timerDuration (tick inp s) = wrap32 (60000 * toInt (message (receive inp s))) /\
  cumulativeElapsedTime (tick inp s) = 0.
Proof.
  intros Hs Hl Hr. destruct (tick_inactive inp s Hs) as (Hd & Hc & _).
  cbv zeta in Hd. rewrite Hl, Hr in Hd. split; assumption.
Qed.

(** C1: a count-up is started at 0 ms, shows 1500 at 1500 ms and is stopped
    at 1520 ms, which leaves CumulativeElapsed = 1520.  The tick of the next
    toggle, at 2000 ms, begins Inactive, so it calls [Reset()] before
    [Start()]: CumulativeElapsed is 0 again, and at 2500 ms the display shows
    500, not 1520 + 500. *)
Theorem restart_discards_elapsed :
  let stopped := run [press 0; idle 1500; press 1520] init in
  let restarted := tick (press 2000) stopped in
  timeValue (run [press 0; idle 1500] init) = 1500 /\
  state stopped = Inactive /\ cumulativeElapsedTime stopped = 1520 /\
  state restarted = Active /\ mode restarted = CountUp /\
  cumulativeElapsedTime restarted = 0 /\
  timeValue (tick (idle 2500) restarted) = 500.
Proof. vm_compute. repeat split. Qed.

(** C2: after the byte "2" the duration is 120000, but the tick that
    receives the newline empties the buffer and takes the duration from it
    again: once "2\n" is complete the duration is 0, and the toggle that
    follows starts a count-up from 0 instead of a countdown from 120000. *)
Theorem delimiter_clears_duration :
  let received := run [rx "2" 0; rx newline 20] init in
  let started := tick (press 40) received in
  timerDuration (run [rx "2" 0] init) = 120000 /\
  message received = EmptyString /\ state received = Inactive /\
  timerDuration received = 0 /\
  state started = Active /\ mode started = CountUp /\
  timeValue started = 0 /\
  timeValue (tick (idle 1040) started) = 1000.
Proof. vm_compute. repeat split. Qed.

(** C3: with an empty buffer every Inactive tick first sets the duration to
    60000 * 0, so each Increase press gives 60000 and nothing accumulates:
    after three presses on separate ticks the duration is 60000, not 180000,
    and the Decrease press that follows leaves 0, not 120000.
    CumulativeElapsed is 0 after each of these ticks. *)
Theorem adjustments_do_not_accumulate :
  timerDuration (run [right 0] init) = 60000 /\
  timerDuration (run [right 0; right 20] init) = 60000 /\
  timerDuration (run [right 0; right 20; right 40] init) = 60000 /\
  timerDuration (run [right 0; right 20; right 40; left 60] init) = 0 /\
  cumulativeElapsedTime (run [right 0] init) = 0 /\
  cumulativeElapsedTime (run [right 0; right 20] init) = 0 /\
  cumulativeElapsedTime (run [right 0; right 20; right 40] init) = 0 /\
  cumulativeElapsedTime (run [right 0; right 20; right 40; left 60] init) = 0.
Proof. vm_compute. repeat split. Qed.

(** * Further properties of the engine *)

(** ** A tick that begins Active *)

Lemma tick_active (inp : Input) (s : State) :
  state s = Active ->
  startTime (tick inp s) = startTime s /\
  cumulativeElapsedTime (tick inp s) =
    (if toggle inp (receive inp s)
     then wrap32 (cumulativeElapsedTime s + wrap32 (callTime inp - startTime s))
     else cumulativeElapsedTime s) /\
  (toggle inp (receive inp s) = true -> state (tick inp s) = Inactive) /\
  (mode s = CountUp -> timeValue (tick inp s) = elapsed (currentTime inp) s) /\
  (mode s = CountUp -> toggle inp (receive inp s) = false ->
     state (tick inp s) = Active).
Proof.
  intros Hs.
  destruct (receive_fields inp s) as (Hs0 & Hm0 & Hd0 & Hc0 & Ht0 & _).
  unfold tick, engine. rewrite Hs0, Hs. unfold active_branch, toggle, elapsed.
  rewrite <- Hm0, <- Hc0, <- Ht0.
  destruct (receive inp s) as [m st d c e md tv out].
  cbn in Hs0. rewrite Hs in Hs0. subst e. cbn.
  destruct md; cbn.
  - destruct (btnStart inp || String.eqb m "s"); cbn;
      repeat split; try reflexivity; discriminate.
  - destruct (remaining (currentTime inp) _ <=? 0); cbn;
      destruct (btnStart inp || String.eqb m "s"); cbn;
      repeat split; try reflexivity; discriminate.
Qed.

Lemma tick_inactive_clock (inp : Input) (s : State) :
  state s = Inactive ->
  startTime (tick inp s) =
    (if toggle inp (receive inp s) then wrap32 (callTime inp) else startTime s) /\
  timeValue (tick inp s) = to_long (timerDuration (tick inp s)).
Proof.
  intros Hs.
  destruct (receive_fields inp s) as (Hs0 & _ & _ & _ & Ht0 & _).
  unfold tick, engine. rewrite Hs0, Hs. unfold inactive_branch, toggle.
  rewrite <- Ht0.
  destruct (receive inp s) as [m st d c e md tv out]. cbn.
  destruct (btnLeft inp); cbn;
    [destruct (60000 <=? wrap32 (60000 * toInt m)); cbn|];
    destruct (btnRight inp); cbn;
    destruct (btnStart inp || String.eqb m "s"); cbn;
    try match goal with |- context [?x =? 0] => destruct (x =? 0) end;
    split; reflexivity.
Qed.

Lemma tick_engine_sound (inp : Input) (s : State) :
  engine_sound s -> engine_sound (tick inp s).
Proof.
  intros [Hr Hc]. destruct (state s) eqn:Hs.
  - destruct (tick_inactive inp s Hs) as (_ & Hcum & _).
    destruct (tick_inactive_clock inp s Hs) as (Hst & _).
    split; [|intros _; exact Hcum].
    rewrite Hst. destruct (toggle inp (receive inp s)); [apply wrap32_range | exact Hr].
  - destruct (tick_active inp s Hs) as (Hst & Hcum & Hoff & _).
    split; [rewrite Hst; exact Hr|].
    intros Ha. rewrite Hcum.
    destruct (toggle inp (receive inp s)).
    + rewrite (Hoff eq_refl) in Ha. discriminate.
    + apply Hc. reflexivity.
Qed.

Lemma run_engine_sound (inps : list Input) (s : State) :
  engine_sound s -> engine_sound (run inps s).
Proof.
  revert s. induction inps as [|i r IH]; intros s H; [exact H|].
  cbn [run]. apply IH. apply tick_engine_sound. exact H.
Qed.

Lemma init_engine_sound : engine_sound init.
Proof. split; [cbn; unfold two32; lia | discriminate]. Qed.

(** X1: in every state reachable from power-up in which the engine is
    Active, CumulativeElapsed is 0: each [Start()] is preceded, on the same
    tick, by the [Reset()] of line 222, and nothing but [Stop()] adds to it. *)
Theorem active_carries_nothing (inps : list Input) :
  state (run inps init) = Active ->
  cumulativeElapsedTime (run inps init) = 0.
Proof.
  intros Hs. destruct (run_engine_sound inps init init_engine_sound) as [_ H].
  apply H. exact Hs.
Qed.

Lemma active_carries_nothing_witness :
  state (run [rx "5" 0; press 20; idle 40; press 60; press 80] init) = Active /\
  cumulativeElapsedTime
    (run [rx "5" 0; press 20; idle 40; press 60; press 80] init) = 0.
Proof.
  split; [reflexivity |].
  apply (active_carries_nothing [rx "5" 0; press 20; idle 40; press 60; press 80]).
  reflexivity.
Defined.

(** X2: during a count-up session reached from power-up, a tick shows the
    time since the session's [Start()], as long as the clock has not wrapped
    since then and fewer than 2^31 ms have passed. *)
Theorem countup_shows_session_time (inps : list Input) (inp : Input) :
  state (run inps init) = Active -> mode (run inps init) = CountUp ->
  startTime (run inps init) <= currentTime inp < two32 ->
  currentTime inp - startTime (run inps init) < two31 ->
  timeValue (tick inp (run inps init)) =
    currentTime inp - startTime (run inps init).
Proof.
  intros Hs Hm Hn Hd.
  destruct (run_engine_sound inps init init_engine_sound) as [Hr Hc].
  specialize (Hc Hs).
  destruct (tick_active inp _ Hs) as (_ & _ & _ & Hv & _).
  rewrite (Hv Hm). unfold elapsed. rewrite Hc, Z.add_0_r.
  rewrite (wrap32_small (currentTime inp)) by lia.
  rewrite (wrap32_small (currentTime inp - startTime (run inps init)))
    by (unfold two31, two32 in *; lia).
  apply to_long_signed. unfold two31 in *. lia.
Qed.

Lemma countup_shows_session_time_witness :
  state (run [press 100] init) = Active /\ mode (run [press 100] init) = CountUp /\
  timeValue (tick (idle 1600) (run [press 100] init)) = 1600 - 100.
Proof.
  split; [reflexivity | split; [reflexivity |]].
  apply (countup_shows_session_time [press 100] (idle 1600));
    [reflexivity | reflexivity | vm_compute; split; [discriminate | reflexivity]
    | reflexivity].
Defined.

(** X3: when a toggle event arrives during a session reached from power-up,
    the tick ends Inactive and CumulativeElapsed is exactly the length of that
    one session, the clock reading inside [Stop()] minus SessionStart
    (modulo 2^32). *)
Theorem stop_records_session (inps : list Input) (inp : Input) :
  state (run inps init) = Active ->
  toggle inp (receive inp (run inps init)) = true ->
  state (tick inp (run inps init)) = Inactive /\
  cumulativeElapsedTime (tick inp (run inps init)) =
    wrap32 (callTime inp - startTime (run inps init)).
Proof.
  intros Hs Ht.
  destruct (run_engine_sound inps init init_engine_sound) as [_ Hc].
  specialize (Hc Hs).
  destruct (tick_active inp _ Hs) as (_ & Hcum & Hoff & _).
  split; [apply Hoff; exact Ht|].
  rewrite Hcum, Ht, Hc, Z.add_0_l. unfold wrap32, two32.
  apply Z.mod_mod. lia.
Qed.

Lemma stop_records_session_witness :
  state (run [press 100; idle 700] init) = Active /\
  toggle (press 1300) (receive (press 1300) (run [press 100; idle 700] init)) = true /\
  cumulativeElapsedTime (tick (press 1300) (run [press 100; idle 700] init)) =
    wrap32 (1300 - 100).
Proof.
  split; [reflexivity | split; [reflexivity |]].
  apply (stop_records_session [press 100; idle 700] (press 1300)); reflexivity.
Defined.

(** X4: a tick that begins Inactive never starts a countdown on the remote
    toggle alone: when it ends Active in CountDown mode, the Start button or
    the Increase button was pressed on it.  (With "s" in the buffer the
    duration taken from the buffer is 0.) *)
Theorem countdown_needs_button (inp : Input) (s : State) :
  state s = Inactive ->
  state (tick inp s) = Active -> mode (tick inp s) = CountDown ->
  btnStart inp = true \/ btnRight inp = true.
Proof.
  intros Hs Ha Hm.
  destruct (tick_inactive inp s Hs) as (_ & _ & Hst & Hmd).
  rewrite Hst in Ha.
  destruct (toggle inp (receive inp s)) eqn:Ht; [|discriminate].
  rewrite (Hmd eq_refl) in Hm. clear Hmd Hst Ha.
  unfold toggle in Ht.
  destruct (btnStart inp); [left; reflexivity|].
  destruct (btnRight inp); [right; reflexivity|].
  exfalso. cbn in Ht. apply String.eqb_eq in Ht. rewrite Ht in Hm.
  change (toInt "s") with 0 in Hm. change (wrap32 (60000 * 0)) with 0 in Hm.
  destruct (btnLeft inp); cbn in Hm; discriminate.
Qed.

Lemma countdown_needs_button_witness :
  state (run [rx "3" 0] init) = Inactive /\
  state (tick (press 20) (run [rx "3" 0] init)) = Active /\
  mode (tick (press 20) (run [rx "3" 0] init)) = CountDown /\
  (btnStart (press 20) = true \/ btnRight (press 20) = true).
Proof.
  split; [reflexivity | split; [reflexivity | split; [reflexivity |]]].
  apply (countdown_needs_button (press 20) (run [rx "3" 0] init)); reflexivity.
Defined.

(** X5: while the buffer holds exactly "s", every tick toggles: a tick that
    begins Inactive ends Active and a tick that begins Active ends Inactive,
    until another byte arrives. *)
Theorem remote_s_flips_state (inp : Input) (s : State) :
  message (receive inp s) = "s"%string ->
  state (tick inp s) = flip (state s).
Proof.
  intros Hm.
  assert (Ht : toggle inp (receive inp s) = true).
  { unfold toggle. rewrite Hm. apply orb_true_r. }
  destruct (state s) eqn:Hs.
  - destruct (tick_inactive inp s Hs) as (_ & _ & Hst & _).
    rewrite Hst, Ht. reflexivity.
  - destruct (tick_active inp s Hs) as (_ & _ & Hoff & _).
    apply Hoff. exact Ht.
Qed.

Lemma remote_s_flips_state_witness :
  message (receive (rx "s" 0) init) = "s"%string /\
  state (tick (rx "s" 0) init) = flip (state init) /\
  state (tick (idle 20) (tick (rx "s" 0) init)) = flip (flip (state init)).
Proof.
  split; [reflexivity | split].
  - apply (remote_s_flips_state (rx "s" 0) init). reflexivity.
  - rewrite (remote_s_flips_state (idle 20) (tick (rx "s" 0) init)) by reflexivity.
    rewrite (remote_s_flips_state (rx "s" 0) init) by reflexivity.
    reflexivity.
Defined.

(** X6: at the end of every tick that began Inactive the displayed value is
    the duration just configured (read as a [long]), also when a button
    adjusted it or the timer was started on that tick. *)
Theorem idle_tick_previews_duration (inp : Input) (s : State) :
  state s = Inactive ->
  timeValue (tick inp s) = to_long (timerDuration (tick inp s)).
Proof.
  intros Hs. destruct (tick_inactive_clock inp s Hs) as (_ & H). exact H.
Qed.

Lemma idle_tick_previews_duration_witness :
  state (run [rx "7" 0] init) = Inactive /\
  timeValue (tick (right 20) (run [rx "7" 0] init)) = 480000.
Proof.
  split; [reflexivity |].
  rewrite (idle_tick_previews_duration (right 20) (run [rx "7" 0] init))
    by reflexivity.
  reflexivity.
Defined.

(** X7: while a countdown of at most 21474836 ms runs and the remaining time
    lies between 0 and the duration, the hue handed to the display is
    100 * remaining / Duration (C division), a value between 0 and 100. *)
Theorem countdown_hue_fraction (inp : Input) (s : State) :
  state s = Active -> mode s = CountDown ->
  0 < timerDuration s <= 21474836 ->
  0 <= remaining (currentTime inp) s <= timerDuration s ->
  tick_hue inp s =
    Some (Z.quot (100 * remaining (currentTime inp) s) (timerDuration s)) /\
  0 <= Z.quot (100 * remaining (currentTime inp) s) (timerDuration s) <= 100.
Proof.
  intros Hs Hm Hd Hr.
  set (r := remaining (currentTime inp) s) in *.
  set (d := timerDuration s) in *.
  assert (B : 0 <= Z.quot (100 * r) d <= 100).
  { rewrite Z.quot_div_nonneg by lia. split.
    - apply Z.div_pos; lia.
    - apply Z.div_le_upper_bound; nia. }
  split; [|exact B].
  rewrite (tick_hue_countdown inp s Hs Hm). fold r d. unfold map_range.
  rewrite (to_long_small d) by (unfold two31; lia).
  destruct (Z.eqb_spec (d - 0) 0); [lia|].
  rewrite !Z.sub_0_r, Z.add_0_r.
  rewrite (Z.mul_comm r 100).
  rewrite (to_long_small (100 * r)) by (unfold two31; lia).
  rewrite to_long_small by (unfold two31; lia).
  reflexivity.
Qed.

Lemma countdown_hue_fraction_witness :
  state running_countdown = Active /\ mode running_countdown = CountDown /\
  tick_hue (idle 30100) running_countdown = Some 75.
Proof.
  split; [reflexivity | split; [reflexivity |]].
  destruct (countdown_hue_fraction (idle 30100) running_countdown) as [H _];
    [reflexivity | reflexivity
    | vm_compute; split; [reflexivity | discriminate]
    | vm_compute; split; discriminate |].
  rewrite H. reflexivity.
Defined.

(** ** The remote message buffer *)

Lemma append_one (m r : string) (c : ascii) :
  ((m ++ String c EmptyString) ++ r = m ++ String c r)%string.
Proof. induction m as [|a m IH]; cbn; [reflexivity | rewrite IH; reflexivity]. Qed.

Lemma append_empty (m : string) : (m ++ EmptyString = m)%string.
Proof. induction m as [|a m IH]; cbn; [reflexivity | rewrite IH; reflexivity]. Qed.

Lemma receive_byte (inp : Input) (s : State) (c : ascii) :
  incoming inp = Some c -> c <> newline -> c <> zero ->
  message (receive inp s) = (message s ++ String c EmptyString)%string.
Proof.
  intros Hi Hn Hz. unfold receive, String_of_char. rewrite Hi.
  destruct (Ascii.eqb_spec c newline); [contradiction|].
  destruct (Ascii.eqb_spec c zero); [contradiction|]. reflexivity.
Qed.

Lemma received_cons (i : Input) (r : list Input) :
  omap incoming (i :: r) =
    match incoming i with
    | Some c => c :: omap incoming r
    | None => omap incoming r
    end.
Proof. reflexivity. Qed.

Lemma run_collects (inps : list Input) :
  forall s : State,
    Forall (fun c => c <> newline /\ c <> zero) (omap incoming inps) ->
    message (run inps s) =
      (message s ++ string_of_list_ascii (omap incoming inps))%string.
Proof.
  induction inps as [|i r IH]; intros s H.
  - cbn. symmetry. apply append_empty.
  - cbn [run]. rewrite received_cons in H |- *.
    destruct (incoming i) as [c|] eqn:Hi.
    + apply Forall_cons_1 in H. destruct H as [[Hn Hz] Hr].
      rewrite (IH _ Hr), tick_message, (receive_byte i s c Hi Hn Hz).
      cbn [string_of_list_ascii]. apply append_one.
    + rewrite (IH _ H), tick_message. unfold receive. rewrite Hi. reflexivity.
Qed.

(** X8: the buffer holds exactly the bytes received since the last newline:
    after a tick that receives the newline, followed by any ticks (with or
    without a byte, whatever the buttons and the engine do) whose bytes are
    neither newline nor NUL, the buffer is the string of those bytes in order
    of arrival. *)
Theorem buffer_since_newline (nl : Input) (inps : list Input) (s : State) :
  incoming nl = Some newline ->
  Forall (fun c => c <> newline /\ c <> zero) (omap incoming inps) ->
  message (run (nl :: inps) s) = string_of_list_ascii (omap incoming inps).
Proof.
  intros Hn H. cbn [run]. rewrite (run_collects inps _ H), tick_message.
  unfold receive. rewrite Hn. reflexivity.
Qed.

Lemma buffer_since_newline_witness :
  incoming (rx newline 0) = Some newline /\
  message (run [rx newline 0; rx "4" 20; press 40; rx "2" 60]
               (tick (rx "9" 0) init)) = "42"%string.
Proof.
  split; [reflexivity |].
  apply (buffer_since_newline (rx newline 0) [rx "4" 20; press 40; rx "2" 60]);
    [reflexivity |].
  cbn. repeat constructor; discriminate.
Defined.

(** * Further properties of the display code *)

Lemma setDigit_full (d v : Z) (c : CHSV) (leds : list CHSV) :
  0 <= v <= 9 -> 0 <= d <= 3 -> length leds = Z.to_nat NUM_LEDS ->
  exists (mask : Z) (leds' : list CHSV),
    digits !! Z.to_nat v = Some mask /\
    setDigit d v c leds = Some leds' /\
    length leds' = length leds /\
    (forall i, 0 <= i < NUM_LEDS_PER_DIGIT ->
       leds' !! Z.to_nat (led_index d i) =
         Some (mkCHSV (hue c) (sat c) (to_u8 (bitRead mask i * 255)))) /\
    (forall k : nat,
       Z.of_nat k < led_index d 0 \/
       led_index d 0 + NUM_LEDS_PER_DIGIT <= Z.of_nat k ->
       leds' !! k = leds !! k).
Proof.
  intros Hv Hd Hl.
  destruct (digit_mask_defined v Hv) as (mask & Hm & Hg).
  destruct (setDigit_loop_spec (Z.to_nat NUM_LEDS_PER_DIGIT) 0 d v c leds mask Hm)
    as (leds' & E & L & In_ & Out);
    try (unfold led_index, NUM_LEDS_PER_DIGIT, NUM_LEDS in *; lia).
  exists mask, leds'.
  split; [exact Hg | split; [exact E | split; [exact L | split]]].
  - intros i Hi. apply In_. unfold NUM_LEDS_PER_DIGIT in *. lia.
  - intros k Hk. apply Out. unfold NUM_LEDS_PER_DIGIT in *. lia.
Qed.

(** X9: [setDigit] writes the 30 cells of its own slot only: every cell of
    the strip outside the block [display*30 .. display*30+29] is left as it
    was, and the strip keeps its length. *)
Theorem setDigit_leaves_other_slots (d v : Z) (c : CHSV) (leds : list CHSV) :
  0 <= v <= 9 -> 0 <= d <= 3 -> length leds = Z.to_nat NUM_LEDS ->
  exists leds' : list CHSV,
    setDigit d v c leds = Some leds' /\
    length leds' = length leds /\
    forall k : nat,
      Z.of_nat k < d * NUM_LEDS_PER_DIGIT \/
      (d + 1) * NUM_LEDS_PER_DIGIT <= Z.of_nat k ->
      leds' !! k = leds !! k.
Proof.
  intros Hv Hd Hl.
  destruct (setDigit_full d v c leds Hv Hd Hl) as (mask & leds' & _ & E & L & _ & Out).
  exists leds'. split; [exact E | split; [exact L|]].
  intros k Hk. apply Out. unfold led_index, NUM_LEDS_PER_DIGIT in *. lia.
Qed.

Lemma setDigit_leaves_other_slots_witness :
  0 <= 8 <= 9 /\ 0 <= 1 <= 3 /\ length dark_strip = Z.to_nat NUM_LEDS /\
  exists leds' : list CHSV,
    setDigit 1 8 (chsv 0 255 255) dark_strip = Some leds' /\
    length leds' = length dark_strip /\
    forall k : nat,
      Z.of_nat k < 1 * NUM_LEDS_PER_DIGIT \/
      (1 + 1) * NUM_LEDS_PER_DIGIT <= Z.of_nat k ->
      leds' !! k = dark_strip !! k.
Proof.
  split; [lia | split; [lia | split; [reflexivity |]]].
  apply (setDigit_leaves_other_slots 1 8 (chsv 0 255 255) dark_strip);
    [lia | lia | reflexivity].
Defined.

Lemma setDigit_agree (d v : Z) (c : CHSV) (l1 l2 : list CHSV) :
  0 <= v <= 9 -> 0 <= d <= 3 ->
  length l1 = Z.to_nat NUM_LEDS -> length l2 = Z.to_nat NUM_LEDS ->
  (forall k : nat, (d + 1) * NUM_LEDS_PER_DIGIT <= Z.of_nat k -> l1 !! k = l2 !! k) ->
  exists l1' l2' : list CHSV,
    setDigit d v c l1 = Some l1' /\ setDigit d v c l2 = Some l2' /\
    length l1' = Z.to_nat NUM_LEDS /\ length l2' = Z.to_nat NUM_LEDS /\
    forall k : nat, d * NUM_LEDS_PER_DIGIT <= Z.of_nat k -> l1' !! k = l2' !! k.
Proof.
  intros Hv Hd H1 H2 Hag.
  destruct (setDigit_full d v c l1 Hv Hd H1) as (m1 & l1' & G1 & E1 & L1 & In1 & Out1).
  destruct (setDigit_full d v c l2 Hv Hd H2) as (m2 & l2' & G2 & E2 & L2 & In2 & Out2).
  assert (m2 = m1) by congruence. subst m2.
  exists l1', l2'.
  split; [exact E1 | split; [exact E2 | split; [congruence | split; [congruence|]]]].
  intros k Hk. unfold led_index, NUM_LEDS_PER_DIGIT in *.
  destruct (Z_lt_le_dec (Z.of_nat k) ((d + 1) * 30)) as [Hin|Hout].
  - specialize (In1 (Z.of_nat k - d * 30) ltac:(lia)).
    specialize (In2 (Z.of_nat k - d * 30) ltac:(lia)).
    replace (Z.to_nat (d * 30 + (Z.of_nat k - d * 30))) with k in In1, In2 by lia.
    congruence.
  - rewrite Out1, Out2 by lia. apply Hag. exact Hout.
Qed.

Lemma render_agree (tv timeHue : Z) (l1 l2 : list CHSV) :
  0 <= tv ->
  length l1 = Z.to_nat NUM_LEDS -> length l2 = Z.to_nat NUM_LEDS ->
  exists out : list CHSV,
    render tv timeHue l1 = Some out /\ render tv timeHue l2 = Some out.
Proof.
  intros Ht H1 H2.
  assert (R : forall d v, In (d, v) (render_calls tv) -> 0 <= v <= 9).
  { intros d v H. destruct (render_calls_range tv d v H) as [_ Hv]. auto. }
  assert (Ha : 0 <= Z.rem (Z.rem (Z.quot tv 1000) 60) 10 <= 9)
    by (apply (R 3); unfold render_calls; cbn [In]; tauto).
  assert (Hb : 0 <= Z.rem (Z.quot (Z.rem (Z.quot tv 1000) 60) 10) 10 <= 9)
    by (apply (R 2); unfold render_calls; cbn [In]; tauto).
  assert (He : 0 <= Z.rem (Z.quot tv 60000) 10 <= 9)
    by (apply (R 1); unfold render_calls; cbn [In]; tauto).
  assert (Hf : 0 <= Z.rem (Z.quot (Z.quot tv 60000) 10) 10 <= 9)
    by (apply (R 0); unfold render_calls; cbn [In]; tauto).
  clear R. unfold render, render_calls. cbv zeta.
  set (c := chsv timeHue 255 255).
  set (a := Z.rem (Z.rem (Z.quot tv 1000) 60) 10) in *.
  set (b := Z.rem (Z.quot (Z.rem (Z.quot tv 1000) 60) 10) 10) in *.
  set (e := Z.rem (Z.quot tv 60000) 10) in *.
  set (f := Z.rem (Z.quot (Z.quot tv 60000) 10) 10) in *.
  clearbody a b e f. cbn [setDigits].
  destruct (setDigit_agree 3 a c l1 l2 Ha ltac:(lia) H1 H2)
    as (a1 & a2 & -> & -> & La1 & La2 & Aa).
  { intros k Hk. rewrite !lookup_ge_None_2; [reflexivity | |];
      unfold NUM_LEDS, NUM_LEDS_PER_DIGIT in *; lia. }
  cbn [mbind option_bind].
  destruct (setDigit_agree 2 b c a1 a2 Hb ltac:(lia) La1 La2 Aa)
    as (b1 & b2 & -> & -> & Lb1 & Lb2 & Ab).
  cbn [mbind option_bind].
  destruct (setDigit_agree 1 e c b1 b2 He ltac:(lia) Lb1 Lb2 Ab)
    as (e1 & e2 & -> & -> & Le1 & Le2 & Ae).
  cbn [mbind option_bind].
  destruct (setDigit_agree 0 f c e1 e2 Hf ltac:(lia) Le1 Le2 Ae)
    as (f1 & f2 & -> & -> & Lf1 & Lf2 & Af).
  cbn [mbind option_bind].
  assert (f1 = f2).
  { apply list_eq. intros k. apply Af. unfold NUM_LEDS_PER_DIGIT. lia. }
  subst f2. exists f1. split; reflexivity.
Qed.

(** X10: the display step overwrites the whole strip: for a non-negative
    displayed value, what it leaves on a strip of 120 cells depends on the
    displayed value and the hue only, not on what the strip held before. *)
Theorem render_overwrites_strip (tv timeHue : Z) (l1 l2 : list CHSV) :
  0 <= tv ->
  length l1 = Z.to_nat NUM_LEDS -> length l2 = Z.to_nat NUM_LEDS ->
  exists out : list CHSV,
    render tv timeHue l1 = Some out /\ render tv timeHue l2 = Some out.
Proof. apply render_agree. Qed.

Lemma render_overwrites_strip_witness :
  0 <= 83000 /\
  length dark_strip = Z.to_nat NUM_LEDS /\
  length (repeat (mkCHSV 7 7 7) 120) = Z.to_nat NUM_LEDS /\
  exists out : list CHSV,
    render 83000 40 dark_strip = Some out /\
    render 83000 40 (repeat (mkCHSV 7 7 7) 120) = Some out.
Proof.
  split; [lia | split; [reflexivity | split; [reflexivity |]]].
  apply (render_overwrites_strip 83000 40 dark_strip (repeat (mkCHSV 7 7 7) 120));
    [lia | reflexivity | reflexivity].
Defined.

(** X11: for a non-negative displayed value the four digits handed to
    [setDigit] read back as MM:SS: slots 2 and 3 hold the tens and units of
    the whole seconds modulo 60, slots 0 and 1 the tens and units of the
    whole minutes modulo 100; below 100 minutes the display therefore shows
    the displayed value cut to whole seconds. *)
Theorem render_shows_minutes_seconds (tv : Z) :
  0 <= tv ->
  exists s1 s10 m1 m10 : Z,
    render_calls tv = [(3, s1); (2, s10); (1, m1); (0, m10)] /\
    10 * s10 + s1 = (tv / 1000) mod 60 /\
    10 * m10 + m1 = (tv / 60000) mod 100 /\
    (tv < 6000000 -> 60 * (10 * m10 + m1) + (10 * s10 + s1) = tv / 1000).
Proof.
  intros Ht. do 4 eexists. split; [reflexivity|].
  assert (Q1 : Z.quot tv 1000 = tv / 1000) by (apply Z.quot_div_nonneg; lia).
  assert (Q2 : Z.quot tv 60000 = tv / 60000) by (apply Z.quot_div_nonneg; lia).
  assert (P1 : 0 <= tv / 1000) by (apply Z.div_pos; lia).
  assert (P2 : 0 <= tv / 60000) by (apply Z.div_pos; lia).
  rewrite Q1, Q2.
  rewrite (Z.rem_mod_nonneg (tv / 1000) 60) by lia.
  assert (P3 : 0 <= (tv / 1000) mod 60 < 60) by (apply Z.mod_pos_bound; lia).
  rewrite (Z.quot_div_nonneg ((tv / 1000) mod 60) 10) by lia.
  rewrite (Z.quot_div_nonneg (tv / 60000) 10) by lia.
  assert (P4 : 0 <= (tv / 1000) mod 60 / 10) by (apply Z.div_pos; lia).
  assert (P5 : 0 <= tv / 60000 / 10) by (apply Z.div_pos; lia).
  rewrite !Z.rem_mod_nonneg by lia.
  repeat split; [| | intros Hsmall]; Z.div_mod_to_equations; lia.
Qed.

Lemma render_shows_minutes_seconds_witness :
  0 <= 754321 /\
  exists s1 s10 m1 m10 : Z,
    render_calls 754321 = [(3, s1); (2, s10); (1, m1); (0, m10)] /\
    10 * s10 + s1 = (754321 / 1000) mod 60 /\
    10 * m10 + m1 = (754321 / 60000) mod 100 /\
    (754321 < 6000000 -> 60 * (10 * m10 + m1) + (10 * s10 + s1) = 754321 / 1000).
Proof.
  split; [lia |]. apply (render_shows_minutes_seconds 754321). lia.
Defined.

(** ** The mask table *)

Lemma digits_facts :
  Forall (fun m => 0 <= m < 2 ^ 30 /\
                   Z.testbit m 16 = false /\ Z.testbit m 29 = false) digits.
Proof.
  unfold digits.
  repeat (apply Forall_cons_2;
          [vm_compute; repeat split; first [reflexivity | discriminate] |]).
  apply Forall_nil_2.
Qed.

Lemma digits_NoDup : NoDup digits.
Proof. apply (bool_decide_unpack _). vm_compute. reflexivity. Qed.

Lemma mask_from_low_bits (m1 m2 : Z) :
  0 <= m1 < 2 ^ 30 -> 0 <= m2 < 2 ^ 30 ->
  (forall i, 0 <= i < 30 -> Z.testbit m1 i = Z.testbit m2 i) ->
  m1 = m2.
Proof.
  intros H1 H2 H. apply Z.bits_inj'. intros n Hn.
  destruct (Z_lt_le_dec n 30) as [L|L]; [apply H; lia|].
  rewrite <- (Z.mod_small m1 (2 ^ 30)), <- (Z.mod_small m2 (2 ^ 30)) by lia.
  rewrite !Z.mod_pow2_bits_high by lia. reflexivity.
Qed.

(** X12: different digit values light different patterns: for two
    different digit values 0-9, [setDigit] leaves different strips (same
    slot, same colour, same strip before). *)
Theorem setDigit_injective (d v1 v2 : Z) (c : CHSV) (leds : list CHSV) :
  0 <= v1 <= 9 -> 0 <= v2 <= 9 -> 0 <= d <= 3 ->
  length leds = Z.to_nat NUM_LEDS ->
  v1 <> v2 ->
  setDigit d v1 c leds <> setDigit d v2 c leds.
Proof.
  intros Hv1 Hv2 Hd Hl Hne E. apply Hne.
  destruct (setDigit_full d v1 c leds Hv1 Hd Hl) as (m1 & l1 & G1 & E1 & _ & In1 & _).
  destruct (setDigit_full d v2 c leds Hv2 Hd Hl) as (m2 & l2 & G2 & E2 & _ & In2 & _).
  assert (l2 = l1) by congruence. subst l2.
  destruct (Forall_lookup_1 _ _ _ _ digits_facts G1) as (R1 & _).
  destruct (Forall_lookup_1 _ _ _ _ digits_facts G2) as (R2 & _).
  assert (M : m1 = m2).
  { apply mask_from_low_bits; [exact R1 | exact R2 |].
    intros i Hi. specialize (In1 i Hi). specialize (In2 i Hi).
    rewrite In1 in In2. rewrite !bitRead_testbit in In2.
    destruct (Z.testbit m1 i), (Z.testbit m2 i);
      first [reflexivity | vm_compute in In2; discriminate]. }
  subst m2.
  pose proof (NoDup_lookup _ _ _ _ digits_NoDup G1 G2). lia.
Qed.

Lemma setDigit_injective_witness :
  0 <= 3 <= 9 /\ 0 <= 8 <= 9 /\ 0 <= 2 <= 3 /\
  length dark_strip = Z.to_nat NUM_LEDS /\ 3 <> 8 /\
  setDigit 2 3 (chsv 0 255 255) dark_strip <> setDigit 2 8 (chsv 0 255 255) dark_strip.
Proof.
  split; [lia | split; [lia | split; [lia | split; [reflexivity | split; [lia |]]]]].
  apply (setDigit_injective 2 3 8 (chsv 0 255 255) dark_strip);
    [lia | lia | lia | reflexivity | lia].
Defined.

(** X13: whatever digit 0-9 is shown, cells 16 and 29 of the slot are dark:
    cell 16 is the spare LED between segments F and E and cell 29 lies past
    the 29 LEDs a digit uses. *)
Theorem spare_cells_dark (d v : Z) (c : CHSV) (leds : list CHSV) :
  0 <= v <= 9 -> 0 <= d <= 3 -> length leds = Z.to_nat NUM_LEDS ->
  exists leds' : list CHSV,
    setDigit d v c leds = Some leds' /\
    leds' !! Z.to_nat (led_index d 16) = Some (mkCHSV (hue c) (sat c) 0) /\
    leds' !! Z.to_nat (led_index d 29) = Some (mkCHSV (hue c) (sat c) 0).
Proof.
  intros Hv Hd Hl.
  destruct (setDigit_full d v c leds Hv Hd Hl) as (m & l & G & E & _ & In_ & _).
  destruct (Forall_lookup_1 _ _ _ _ digits_facts G) as (_ & B16 & B29).
  exists l. split; [exact E|].
  rewrite (In_ 16), (In_ 29) by (unfold NUM_LEDS_PER_DIGIT; lia).
  rewrite !bitRead_testbit, B16, B29. split; reflexivity.
Qed.

Lemma spare_cells_dark_witness :
  0 <= 8 <= 9 /\ 0 <= 0 <= 3 /\ length dark_strip = Z.to_nat NUM_LEDS /\
  exists leds' : list CHSV,
    setDigit 0 8 (chsv 9 255 255) dark_strip = Some leds' /\
    leds' !! Z.to_nat (led_index 0 16) =
      Some (mkCHSV (hue (chsv 9 255 255)) (sat (chsv 9 255 255)) 0) /\
    leds' !! Z.to_nat (led_index 0 29) =
      Some (mkCHSV (hue (chsv 9 255 255)) (sat (chsv 9 255 255)) 0).
Proof.
  split; [lia | split; [lia | split; [reflexivity |]]].
  apply (spare_cells_dark 0 8 (chsv 9 255 255) dark_strip); [lia | lia | reflexivity].
Defined.

(** * Further properties of a whole tick *)

Lemma tick_hue_other (inp : Input) (s : State) :
  (state s = Inactive -> tick_hue inp s = Some (beat inp)) /\
  (state s = Active -> mode s = CountUp -> tick_hue inp s = Some 0).
Proof.
  destruct (receive_fields inp s) as (Hs0 & Hm0 & _).
  unfold tick_hue, engine. rewrite Hs0.
  split.
  - intros Hs. rewrite Hs. reflexivity.
  - intros Hs Hm. rewrite Hs. unfold active_branch. rewrite Hm0, Hm.
    destruct (toggle inp _); reflexivity.
Qed.

Lemma tick_hue_defined (inps : list Input) (inp : Input) :
  exists h : Z, tick_hue inp (run inps init) = Some h.
Proof.
  set (s := run inps init).
  destruct (tick_hue_other inp s) as [Hi Hu].
  destruct (state s) eqn:Hs; [eexists; apply Hi; reflexivity|].
  destruct (mode s) eqn:Hm; [eexists; apply Hu; reflexivity|].
  destruct (run_duration_sound inps init init_duration_sound) as [Hr Hz].
  fold s in Hr, Hz. specialize (Hz Hs Hm).
  rewrite (tick_hue_countdown inp s Hs Hm). unfold map_range.
  destruct (Z.eqb_spec (to_long (timerDuration s) - 0) 0) as [E|E].
  - exfalso. apply Hz. apply to_long_zero; [exact Hr | lia].
  - eexists. reflexivity.
Qed.

(** X14: from any state reachable from power-up, a whole call of [loop()]
    whose displayed value is non-negative runs to its end on a strip of 120
    cells: the hue computation does not divide by zero, no table or strip
    access is out of bounds, and the strip still has 120 cells. *)
Theorem loop_completes (inps : list Input) (inp : Input) (leds : list CHSV) :
  length leds = Z.to_nat NUM_LEDS ->
  0 <= timeValue (tick inp (run inps init)) ->
  exists out : list CHSV,
    loop inp (run inps init, leds) = (tick inp (run inps init), Some out) /\
    length out = Z.to_nat NUM_LEDS.
Proof.
  intros Hl Hv.
  destruct (tick_hue_defined inps inp) as [h Hh].
  unfold loop. unfold tick, tick_hue in *.
  destruct (engine inp (run inps init)) as [s' th]. cbn [fst snd] in *.
  subst th. cbn [mbind option_bind].
  destruct (setDigits_succeed (render_calls (timeValue s')) (chsv h 255 255) leds)
    as (out & E & L); [|exact Hl|].
  - intros d v H. destruct (render_calls_range _ d v H) as [Hd Hr]. auto.
  - exists out. unfold render. rewrite E. split; [reflexivity | exact L].
Qed.

Lemma loop_completes_witness :
  length dark_strip = Z.to_nat NUM_LEDS /\
  0 <= timeValue (tick (idle 5000) (run [rx "2" 0; press 20] init)) /\
  exists out : list CHSV,
    loop (idle 5000) (run [rx "2" 0; press 20] init, dark_strip) =
      (tick (idle 5000) (run [rx "2" 0; press 20] init), Some out) /\
    length out = Z.to_nat NUM_LEDS.
Proof.
  split; [reflexivity | split; [vm_compute; discriminate |]].
  apply (loop_completes [rx "2" 0; press 20] (idle 5000) dark_strip);
    [reflexivity | vm_compute; discriminate].
Defined.

(** ** The echo *)

Lemma tick_echo (inp : Input) (s : State) :
  List.filter is_echo (serial (tick inp s)) =
    List.filter is_echo (serial s) ++
    match incoming inp with Some c => [Echo c] | None => [] end.
Proof.
  assert (R : List.filter is_echo (serial (receive inp s)) =
              List.filter is_echo (serial s) ++
              match incoming inp with Some c => [Echo c] | None => [] end).
  { unfold receive. destruct (incoming inp) as [ch|].
    - destruct (Ascii.eqb ch newline); cbn [serial print set_message];
        rewrite List.filter_app; reflexivity.
    - rewrite app_nil_r. reflexivity. }
  rewrite <- R. clear R.
  unfold tick, engine.
  set (s0 := receive inp s). clearbody s0.
  destruct (state s0).
  - unfold inactive_branch. cbv zeta. cbn [fst].
    destruct (btnLeft inp); [destruct (60000 <=? _)|];
      destruct (btnRight inp);
      same_toggle s0; destruct (toggle inp s0);
      try match goal with |- context [?x =? 0] => destruct (x =? 0) end;
      autorewrite with frame; repeat rewrite List.filter_app; cbn [List.filter is_echo];
      rewrite ?app_nil_r; reflexivity.
  - unfold active_branch.
    destruct (mode s0); [|destruct (timeValue _ <=? 0)];
      same_toggle s0; destruct (toggle inp s0); cbn [fst];
      autorewrite with frame; repeat rewrite List.filter_app; cbn [List.filter is_echo];
      rewrite ?app_nil_r; reflexivity.
Qed.

(** X15: every byte taken from the Bluetooth stream is echoed on the serial
    line, once and in order of arrival, and nothing else is echoed: the
    echoes printed by a run from power-up are exactly the bytes received. *)
Theorem echo_is_what_was_received (inps : list Input) :
  List.filter is_echo (serial (run inps init)) =
    List.map Echo (omap incoming inps).
Proof.
  assert (G : forall s,
             List.filter is_echo (serial (run inps s)) =
               List.filter is_echo (serial s) ++ List.map Echo (omap incoming inps)).
  { induction inps as [|i r IH]; intros s.
    - cbn. rewrite app_nil_r. reflexivity.
    - cbn [run]. rewrite IH, tick_echo, received_cons, <- app_assoc.
      destruct (incoming i); reflexivity. }
  rewrite G. reflexivity.
Qed.

(** ** Adjusting the duration *)

(** X16: on a tick that begins Active neither the buttons nor the remote
    buffer change the configured duration or the count direction. *)
Theorem session_keeps_duration (inp : Input) (s : State) :
  state s = Active ->
  timerDuration (tick inp s) = timerDuration s /\ mode (tick inp s) = mode s.
Proof. apply tick_active_keeps. Qed.

Lemma session_keeps_duration_witness :
  state running_countdown = Active /\
  timerDuration (tick (mkInput false true true (Some "9"%char) 500 500 0)
                      running_countdown) = timerDuration running_countdown /\
  mode (tick (mkInput false true true (Some "9"%char) 500 500 0)
             running_countdown) = mode running_countdown.
Proof.
  split; [reflexivity |].
  apply (session_keeps_duration (mkInput false true true (Some "9"%char) 500 500 0)
           running_countdown).
  reflexivity.
Defined.

(** X17: a Decrease press (without Increase) on a tick that begins Inactive
    never wraps the unsigned duration: from the duration [d0] taken from the
    buffer it subtracts one minute when [d0 >= 60000] and leaves [d0] as it is
    otherwise, so the result lies between 0 and [d0]. *)
Theorem decrease_never_wraps (inp : Input) (s : State) :
  state s = Inactive -> btnLeft inp = true -> btnRight inp = false ->
  timerDuration (tick inp s) =
    (if 60000 <=? wrap32 (60000 * toInt (message (receive inp s)))
     then wrap32 (60000 * toInt (message (receive inp s))) - 60000
     else wrap32 (60000 * toInt (message (receive inp s)))) /\
  0 <= timerDuration (tick inp s) <= wrap32 (60000 * toInt (message (receive inp s))).
Proof.
  intros Hs Hl Hr. destruct (tick_inactive inp s Hs) as (Hd & _).
  cbv zeta in Hd. rewrite Hl, Hr in Hd. rewrite Hd. clear Hd.
  pose proof (wrap32_range (60000 * toInt (message (receive inp s)))) as R.
  set (d0 := wrap32 (60000 * toInt (message (receive inp s)))) in *.
  destruct (Z.leb_spec 60000 d0).
  - rewrite wrap32_small by lia. lia.
  - lia.
Qed.

Lemma decrease_never_wraps_witness :
  state (run [rx "3" 0] init) = Inactive /\
  btnLeft (left 20) = true /\ btnRight (left 20) = false /\
  timerDuration (tick (left 20) (run [rx "3" 0] init)) = 120000.
Proof.
  split; [reflexivity | split; [reflexivity | split; [reflexivity |]]].
  destruct (decrease_never_wraps (left 20) (run [rx "3" 0] init)) as [H _];
    [reflexivity | reflexivity | reflexivity |].
  rewrite H. reflexivity.
Defined.

(** * The transitions processed on one tick *)

Lemma state_print (o : SerialOut) (s : State) : state (print o s) = state s.
Proof. reflexivity. Qed.

Lemma state_Reset (s : State) : state (Reset s) = Inactive.
Proof. reflexivity. Qed.

Lemma state_Start (t : Z) (s : State) : state (Start t s) = Active.
Proof. reflexivity. Qed.

Lemma state_Stop (t : Z) (s : State) : state (Stop t s) = Inactive.
Proof. reflexivity. Qed.

Lemma state_set_state (e : EngineState) (s : State) : state (set_state e s) = e.
Proof. reflexivity. Qed.

Lemma state_set_timerDuration (d : Z) (s : State) :
  state (set_timerDuration d s) = state s.
Proof. reflexivity. Qed.

Lemma state_set_timeValue (v : Z) (s : State) : state (set_timeValue v s) = state s.
Proof. reflexivity. Qed.

Lemma state_set_mode (m : Mode) (s : State) : state (set_mode m s) = state s.
Proof. reflexivity. Qed.

Create Rewrite HintDb stage.

#[local] Hint Rewrite serial_print serial_Reset serial_Start serial_Stop
  serial_set_timerDuration serial_set_timeValue serial_set_state serial_set_mode
  state_print state_Reset state_Start state_Stop state_set_state
  state_set_timerDuration state_set_timeValue state_set_mode : stage.

Lemma tick_stages_last (inp : Input) (s : State) :
  last (tick_stages inp s) = Some (tick inp s).
Proof.
  unfold tick_stages, tick, engine. cbv zeta.
  set (s0 := receive inp s). clearbody s0.
  destruct (state s0).
  - unfold inactive_stages, inactive_branch. reflexivity.
  - unfold active_stages, active_branch. cbv zeta.
    destruct (mode s0); [|destruct (timeValue _ <=? 0)];
      match goal with |- context [toggle ?i ?x] => destruct (toggle i x) end;
      reflexivity.
Qed.

(** A step that prints nothing, or only lines other than those of
    [Start()] and [Stop()], and keeps the state, is no transition. *)
Lemma quiet_step (a b : State) (out : list SerialOut) :
  state b = state a -> serial b = serial a ++ out -> transitions out = 0%nat ->
  transition_step a b = false.
Proof.
  intros Hs Ho Ht. unfold transition_step, printed.
  rewrite Hs, Ho, drop_app_length, Ht. destruct (state a); reflexivity.
Qed.

Lemma call_step (a b : State) (out : list SerialOut) :
  serial b = serial a ++ out -> transitions out = 1%nat ->
  transition_step a b = true.
Proof.
  intros Ho Ht. unfold transition_step, printed.
  rewrite Ho, drop_app_length, Ht. apply orb_true_r.
Qed.

Lemma receive_step (inp : Input) (s : State) :
  transition_step s (receive inp s) = false.
Proof.
  destruct (receive_fields inp s) as (Hs & _).
  unfold receive in *. destruct (incoming inp) as [c|].
  - apply (quiet_step _ _ [Echo c]); [exact Hs | | reflexivity].
    destruct (Ascii.eqb c newline); reflexivity.
  - apply (quiet_step _ _ []); [reflexivity | | reflexivity].
    symmetry. apply app_nil_r.
Qed.

Ltac quiet out :=
  apply (quiet_step _ _ out);
  [ autorewrite with stage; try reflexivity; congruence
  | autorewrite with stage; rewrite <- ?app_assoc, ?app_nil_r; reflexivity
  | reflexivity ].

Lemma count_active_stages (inp : Input) (s0 : State) :
  state s0 = Active ->
  count_steps (s0 :: active_stages inp s0) =
    ((if toggle inp s0 then 1 else 0) +
     (match mode s0 with
      | CountDown => if (remaining (currentTime inp) s0 <=? 0)%Z then 1 else 0
      | CountUp => 0
      end))%nat.
Proof.
  intros Hs. unfold active_stages. cbv zeta.
  destruct (mode s0).
  - (* count-up *)
    set (s1 := set_timeValue _ s0).
    assert (Q1 : transition_step s0 s1 = false) by (subst s1; quiet (@nil SerialOut)).
    assert (Q2 : transition_step s1 s1 = false) by quiet (@nil SerialOut).
    rewrite (toggle_message inp s1 s0) by reflexivity.
    cbn [count_steps]. rewrite Q1, Q2.
    destruct (toggle inp s0).
    + rewrite (call_step s1 (Stop (callTime inp) s1) [Line msg_stopped]);
        reflexivity.
    + rewrite Q2. reflexivity.
  - (* countdown *)
    cbn [timeValue set_timeValue].
    set (s1 := set_timeValue (remaining (currentTime inp) s0) s0).
    assert (Q1 : transition_step s0 s1 = false) by (subst s1; quiet (@nil SerialOut)).
    destruct (remaining (currentTime inp) s0 <=? 0).
    + set (s2 := set_state Inactive (set_timeValue 0 s1)).
      assert (E : transition_step s1 s2 = true).
      { unfold transition_step. subst s1 s2. autorewrite with stage.
        rewrite Hs. reflexivity. }
      rewrite (toggle_message inp s2 s0) by reflexivity.
      cbn [count_steps]. rewrite Q1, E.
      destruct (toggle inp s0).
      * rewrite (call_step s2 (Stop (callTime inp) s2) [Line msg_stopped]);
          reflexivity.
      * assert (Q3 : transition_step s2 s2 = false) by quiet (@nil SerialOut).
        rewrite Q3. reflexivity.
    + assert (Q2 : transition_step s1 s1 = false) by quiet (@nil SerialOut).
      rewrite (toggle_message inp s1 s0) by reflexivity.
      cbn [count_steps]. rewrite Q1, Q2.
      destruct (toggle inp s0).
      * rewrite (call_step s1 (Stop (callTime inp) s1) [Line msg_stopped]);
          reflexivity.
      * rewrite Q2. reflexivity.
Qed.

Lemma count_inactive_stages (inp : Input) (s0 : State) :
  state s0 = Inactive ->
  count_steps (s0 :: inactive_stages inp s0) =
    (if toggle inp s0 then 1 else 0)%nat.
Proof.
  intros Hs. unfold inactive_stages. cbv zeta.
  match goal with |- count_steps (_ :: ?x :: _) = _ => set (s3 := x) end.
  match goal with |- count_steps (_ :: _ :: ?x :: _) = _ => set (s4 := x) end.
  match goal with |- count_steps (_ :: _ :: _ :: ?x :: _) = _ => set (s5 := x) end.
  match goal with |- count_steps (_ :: _ :: _ :: _ :: ?x :: _) = _ => set (s6 := x) end.
  assert (Q3 : transition_step s0 s3 = false) by (subst s3; quiet [Line msg_reset]).
  assert (M3 : message s3 = message s0) by reflexivity.
  assert (S3 : state s3 = Inactive) by reflexivity.
  assert (F4 : transition_step s3 s4 = false /\ message s4 = message s3 /\
               state s4 = Inactive).
  { subst s4. destruct (btnLeft inp).
    - destruct (60000 <=? timerDuration s3);
        (split; [| split; reflexivity]);
        match goal with
        | |- transition_step _ (Reset (print (Value ?v) _)) = false =>
            apply (quiet_step _ _ [Value v; Line msg_reset]);
              [ rewrite S3; reflexivity
              | autorewrite with stage; rewrite <- app_assoc; reflexivity
              | reflexivity ]
        end.
    - split; [| split; [reflexivity | exact S3]].
      apply (quiet_step _ _ []); [reflexivity | symmetry; apply app_nil_r | reflexivity]. }
  destruct F4 as (Q4 & M4 & S4). clearbody s4.
  assert (F5 : transition_step s4 s5 = false /\ message s5 = message s4 /\
               state s5 = Inactive).
  { subst s5. destruct (btnRight inp).
    - split; [| split; reflexivity].
      match goal with
      | |- transition_step _ (Reset (print (Value ?v) _)) = false =>
          apply (quiet_step _ _ [Value v; Line msg_reset]);
            [ rewrite S4; reflexivity
            | autorewrite with stage; rewrite <- app_assoc; reflexivity
            | reflexivity ]
      end.
    - split; [| split; [reflexivity | exact S4]].
      apply (quiet_step _ _ []); [reflexivity | symmetry; apply app_nil_r | reflexivity]. }
  destruct F5 as (Q5 & M5 & S5). clearbody s5.
  assert (T : toggle inp s5 = toggle inp s0)
    by (apply toggle_message; congruence).
  cbn [count_steps]. rewrite Q3, Q4, Q5. subst s6. rewrite T.
  destruct (toggle inp s0).
  - rewrite (call_step s5 _ [Line msg_activated]); [reflexivity | | reflexivity].
    destruct (timerDuration s5 =? 0); reflexivity.
  - rewrite (quiet_step s5 s5 []);
      [reflexivity | reflexivity | symmetry; apply app_nil_r | reflexivity].
Qed.

Lemma tick_transitions_count (inp : Input) (s : State) :
  tick_transitions inp s =
    ((if toggle inp (receive inp s) then 1 else 0) +
     (if expired inp s then 1 else 0))%nat.
Proof.
  destruct (receive_fields inp s) as (Hs0 & Hm0 & _).
  unfold tick_transitions, tick_stages, expired. cbv zeta.
  rewrite <- (remaining_receive inp), <- Hs0, <- Hm0.
  set (s0 := receive inp s).
  assert (R : transition_step s s0 = false) by apply receive_step.
  clearbody s0.
  destruct (state s0) eqn:Hs.
  - change (count_steps (s :: s0 :: inactive_stages inp s0))
      with ((if transition_step s s0 then 1 else 0)
            + count_steps (s0 :: inactive_stages inp s0))%nat.
    rewrite R, (count_inactive_stages inp s0 Hs). cbn. lia.
  - change (count_steps (s :: s0 :: active_stages inp s0))
      with ((if transition_step s s0 then 1 else 0)
            + count_steps (s0 :: active_stages inp s0))%nat.
    rewrite R, (count_active_stages inp s0 Hs).
    destruct (mode s0); reflexivity.
Qed.

Lemma tick_active_state (inp : Input) (s : State) :
  state s = Active ->
  state (tick inp s) =
    if toggle inp (receive inp s) || expired inp s then Inactive else Active.
Proof.
  intros Hs.
  destruct (receive_fields inp s) as (Hs0 & Hm0 & _).
  unfold expired. rewrite Hs.
  rewrite <- (remaining_receive inp), <- Hm0.
  unfold tick, engine. rewrite Hs0, Hs. unfold active_branch, toggle.
  destruct (receive inp s) as [m st d c e md tv out].
  cbn in Hs0. rewrite Hs in Hs0. subst e. cbn.
  destruct md; cbn.
  - destruct (btnStart inp || String.eqb m "s"); reflexivity.
  - destruct (remaining (currentTime inp) _ <=? 0); cbn;
      destruct (btnStart inp || String.eqb m "s"); reflexivity.
Qed.

(** C8, as stated, fails: on the tick at 60520 ms of a one-minute countdown
    started at 20 ms, with the Start button pressed, the countdown expiry
    (lines 195-198) takes the engine from Active to Inactive and clamps the
    displayed value from -500 to 0, and then [Stop()] (line 210) runs as well
    and adds 60500 to CumulativeElapsed: two Start/Stop transitions are
    processed on one tick. *)
Lemma expiry_and_stop_on_one_tick :
  state one_minute_countdown = Active /\
  mode one_minute_countdown = CountDown /\
  remaining 60520 one_minute_countdown = -500 /\
  toggle (press 60520) (receive (press 60520) one_minute_countdown) = true /\
  List.map state (tick_stages (press 60520) one_minute_countdown) =
    [Active; Active; Active; Inactive; Inactive] /\
  List.map cumulativeElapsedTime (tick_stages (press 60520) one_minute_countdown) =
    [0; 0; 0; 0; 60500] /\
  List.map timeValue (tick_stages (press 60520) one_minute_countdown) =
    [60000; 60000; -500; 0; 0] /\
  tick_transitions (press 60520) one_minute_countdown = 2%nat /\
  ~ (tick_transitions (press 60520) one_minute_countdown <= 1)%nat.
Proof.
  assert (E : tick_transitions (press 60520) one_minute_countdown = 2%nat)
    by (vm_compute; reflexivity).
  repeat split; try (vm_compute; reflexivity).
  rewrite E. lia.
Qed.

(** C8 (amended): a tick takes at most one byte from the remote stream, then
    runs one branch of the engine, then renders the strip from the displayed
    value and hue the engine has just produced, the previous contents of the
    strip playing no part.  [Start()] runs only on a tick that begins
    Inactive and [Stop()] only on a tick that begins Active, each exactly
    when the toggle condition (Start button, or buffer equal to "s") holds on
    that tick, so the engine state changes at most once per tick.  The
    number of Start/Stop transitions processed on a tick is one for a toggle
    event plus one for a countdown expiry: it is at most one, except on a
    tick where the countdown expires and a toggle event is present. *)
Theorem transitions_per_tick (inp : Input) (s : State) :
  last (tick_stages inp s) = Some (tick inp s) /\
  message (tick inp s) = message (receive inp s) /\
  tick_transitions inp s =
    ((if toggle inp (receive inp s) then 1 else 0) +
     (if expired inp s then 1 else 0))%nat /\
  (toggle inp (receive inp s) && expired inp s = false ->
     (tick_transitions inp s <= 1)%nat) /\
  (state s = Inactive ->
     state (tick inp s) =
       (if toggle inp (receive inp s) then Active else Inactive) /\
     startTime (tick inp s) =
       (if toggle inp (receive inp s) then wrap32 (callTime inp) else startTime s) /\
     cumulativeElapsedTime (tick inp s) = 0) /\
  (state s = Active ->
     state (tick inp s) =
       (if toggle inp (receive inp s) || expired inp s then Inactive else Active) /\
     startTime (tick inp s) = startTime s /\
     cumulativeElapsedTime (tick inp s) =
       (if toggle inp (receive inp s)
        then wrap32 (cumulativeElapsedTime s + wrap32 (callTime inp - startTime s))
        else cumulativeElapsedTime s)) /\
  (exists out : list SerialOut,
     serial (tick inp s) = serial s ++ out /\
     transitions out = (if toggle inp (receive inp s) then 1 else 0)%nat /\
     (state s = Inactive -> List.filter (is_line msg_stopped) out = []) /\
     (state s = Active -> List.filter (is_line msg_activated) out = [])) /\
  (forall leds : list CHSV,
     loop inp (s, leds) =
       (tick inp s, h ← tick_hue inp s; render (timeValue (tick inp s)) h leds)) /\
  (forall l1 l2 : list CHSV,
     0 <= timeValue (tick inp s) ->
     length l1 = Z.to_nat NUM_LEDS -> length l2 = Z.to_nat NUM_LEDS ->
     snd (loop inp (s, l1)) = snd (loop inp (s, l2))).
Proof.
  split; [apply tick_stages_last|].
  split; [apply tick_message|].
  split; [apply tick_transitions_count|].
  split.
  { intros H. rewrite tick_transitions_count.
    destruct (toggle inp (receive inp s)), (expired inp s);
      cbn in *; try discriminate; lia. }
  split.
  { intros Hs. destruct (tick_inactive inp s Hs) as (_ & Hc & Hst & _).
    destruct (tick_inactive_clock inp s Hs) as (Ht & _). auto. }
  split.
  { intros Hs. destruct (tick_active inp s Hs) as (Ht & Hc & _).
    split; [apply tick_active_state; exact Hs | auto]. }
  split; [apply tick_serial|].
  split.
  { intros leds. unfold loop, tick, tick_hue. destruct (engine inp s). reflexivity. }
  intros l1 l2 Hv H1 H2. unfold loop, tick in *.
  destruct (engine inp s) as [s' th]. cbn [fst snd] in *.
  destruct th as [h|]; [|reflexivity]. cbn [mbind option_bind].
  destruct (render_agree (timeValue s') h l1 l2 Hv H1 H2) as (out & -> & ->).
  reflexivity.
Qed.

Lemma transitions_per_tick_witness :
  toggle (press 1500) (receive (press 1500) running_countdown)
    && expired (press 1500) running_countdown = false /\
  (tick_transitions (press 1500) running_countdown <= 1)%nat /\
  state running_countdown = Active /\
  state (tick (press 1500) running_countdown) = Inactive.
Proof.
  destruct (transitions_per_tick (press 1500) running_countdown)
    as (_ & _ & _ & H1 & _ & H2 & _).
  split; [reflexivity | split; [apply H1; reflexivity |]].
  split; [reflexivity |].
  destruct (H2 eq_refl) as (H & _). rewrite H. reflexivity.
Defined.
